(** * HTBCM landfill model (app32.py): transport, sorption and Monod
    biodegradation through a vertical profile, with rainfall infiltration at
    the surface node and liner leakage at the base node.

    Two embeddings of the script are used.

    - The whole script (grid derivation, allocation, the loop and the
      exceptions it can raise) over exact rationals [Q], with [Qeq] ([==]) as
      equality of computed numbers.  What is proved on it holds in exact
      arithmetic: rounding, overflow and non-finite values are outside it.
      [Q] gives [x / 0 = 0] where NumPy gives an infinity or NaN, so the
      statements on it assume what keeps the divisors away from zero
      ([Ks > 0], [Kd >= 0], non-negative concentrations) unless they hold
      whatever the quotients are.

    - One pass of the loop over the kernel's IEEE 754 binary64 numbers
      ([Module F64]), with rounding, infinities and NaN: the numbers the
      script really stores. *)

From Stdlib Require Import ZArith QArith Qminmax Lia Lqa List Bool.
From Stdlib Require Import Floats.
From Stdlib Require Import Qpower.
From stdpp Require Import base list.

Local Open Scope Q_scope.

#[global] Instance Q_inhabited : Inhabited Q := populate 0.

(** ** Inputs: the values the sidebar widgets hand to the script *)

Record Inputs := {
  length_ : Z;            (* "Landfill Depth (m)", an int slider *)
  time_days : Z;          (* "Simulation Time (days)", an int slider *)
  velocity : Q;
  dispersion : Q;
  rainfall_rate : Q;
  infiltration_coeff : Q;
  liner_thickness : Q;
  liner_perm : Q;
  sorption_kd : Q;
  initial_conc : Q;
  initial_biomass : Q;
  mu_max : Q;
  Ks : Q;
  biogas_yield : Q
}.

(** Lines 11 and 13: the steps are constants of the script. *)
Definition dx : Q := 1.
Definition dt : Q := 1.

(** Python's [int(x)] on a float: truncation toward zero. *)
Definition int (x : Q) : Z := Z.quot (Qnum x) (Zpos (Qden x)).

(** Lines 12 and 14. *)
Definition nx (p : Inputs) : Z := int (inject_Z (length_ p) / dx).
Definition t_steps (p : Inputs) : Z := int (inject_Z (time_days p) / dt).

(** Line 27. *)
Definition rain_input (p : Inputs) : Q :=
  (rainfall_rate p / 1000) * infiltration_coeff p.

(** Line 33. *)
Definition liner_leakage (p : Inputs) : Q :=
  liner_perm p * (1 / liner_thickness p) * dt * 86400.

(** ** Monod kinetics (lines 55-56), on one node *)

Definition monod (C B mu_max Ks : Q) : Q := mu_max * C / (Ks + C) * B.

(** ** Python exceptions and the script's outcomes *)

Inductive PyError := ZeroDivisionError | ValueError | IndexError.

Inductive result (A : Type) : Type :=
  | Ok (a : A)
  | Raise (e : PyError).
Arguments Ok {A} a.
Arguments Raise {A} e.

#[global] Instance result_ret : MRet result := fun _ a => Ok a.
#[global] Instance result_bind : MBind result := fun _ _ k m =>
  match m with Ok a => k a | Raise e => Raise e end.

(** ** NumPy arrays as lists *)

Definition zeros (n : nat) : list Q := replicate n 0.
Definition zeros2 (rows cols : nat) : list (list Q) := replicate rows (zeros cols).
Definition full (n : nat) (v : Q) : list Q := replicate n v.

(** [a[i]] and [a[i] = v] for [0 <= i]; out of range raises. *)
Definition getitem {A} (a : list A) (i : nat) : result A :=
  match a !! i with Some v => Ok v | None => Raise IndexError end.
Definition setitem {A} (i : nat) (v : A) (a : list A) : result (list A) :=
  if (i <? length a)%nat then Ok (<[i := v]> a) else Raise IndexError.

(** [a[-1]] and [a[-1] = v]. *)
Definition getitem_last {A} (a : list A) : result A :=
  match last a with Some v => Ok v | None => Raise IndexError end.
Definition setitem_last {A} (v : A) (a : list A) : result (list A) :=
  match a with
  | [] => Raise IndexError
  | _ => Ok (<[(length a - 1)%nat := v]> a)
  end.

(** Elementwise arithmetic with scalar broadcasting. *)
Declare Scope arr_scope.
Delimit Scope arr_scope with arr.
Definition vadd (a b : list Q) : list Q := zip_with Qplus a b.
Definition vsub (a b : list Q) : list Q := zip_with Qminus a b.
Definition scal_l (k : Q) (a : list Q) : list Q := (fun x => k * x) <$> a.
Definition scal_r (a : list Q) (k : Q) : list Q := (fun x => x * k) <$> a.
Definition div_r (a : list Q) (k : Q) : list Q := (fun x => x / k) <$> a.
Infix ".+" := vadd (at level 50, left associativity) : arr_scope.
Infix ".-" := vsub (at level 50, left associativity) : arr_scope.
Infix "*." := scal_l (at level 40, left associativity) : arr_scope.
Infix ".*" := scal_r (at level 40, left associativity) : arr_scope.
Infix "./" := div_r (at level 40, left associativity) : arr_scope.

(** [np.maximum(a, 0)]: [x] where [x >= 0], else [0]. *)
Definition maximum0 (a : list Q) : list Q := (fun x => Qmax x 0) <$> a.

(** [np.sum]; in exact arithmetic the order of the additions is immaterial. *)
Definition np_sum (a : list Q) : Q := foldr Qplus 0 a.

(** [monod] applied to arrays: NumPy evaluates the expression per node. *)
Definition monod_arr (C B : list Q) (mu_max Ks : Q) : list Q :=
  zip_with (fun c b => monod c b mu_max Ks) C B.

(** [np.gradient(f, h)] for a 1-D array and a scalar spacing, [edge_order=1]:
    [out[1:-1] = (f[2:] - f[:-2]) / (2*h)], [out[0] = (f[1] - f[0]) / h],
    [out[-1] = (f[-1] - f[-2]) / h]; fewer than two samples is a [ValueError]. *)
Definition gradient (f : list Q) (h : Q) : list Q :=
  let n := length f in
  let interior :=
    zip_with (fun a b => (a - b) / (2 * h)) (drop 2 f) (take (n - 2) f) in
  [(f !!! 1%nat - f !!! 0%nat) / h]
    ++ interior
    ++ [(f !!! (n - 1)%nat - f !!! (n - 2)%nat) / h].

Definition np_gradient (f : list Q) (h : Q) : result (list Q) :=
  if (length f <? 2)%nat then Raise ValueError else Ok (gradient f h).

(** ** State arrays and the main simulation loop *)

Record State := {
  C : list (list Q);      (* concentration, [t_steps] rows of [nx] nodes *)
  B : list (list Q);      (* biomass, same shape *)
  gas : list Q            (* cumulative gas, [t_steps] entries *)
}.

Local Open Scope arr_scope.

(** Lines 60-82, one pass of the loop body for time step [n].  The four
    successive assignments to [C[n, :]] are the four [let]s on [Cn]; the row is
    stored once they are done (nothing can raise between them). *)
Definition loop_body (p : Inputs) (n : nat) (s : State) : result State :=
  let nx := Z.to_nat (nx p) in
  prevC ← getitem (C s) (n - 1);
  dCdx ← np_gradient prevC dx;
  d2Cdx2 ← np_gradient dCdx dx;
  infiltration_input ← setitem 0 (rain_input p * 1000) (zeros nx);
  c_last ← getitem_last prevC;
  liner_loss ← setitem_last (liner_leakage p * c_last) (zeros nx);
  let C_mobile := prevC ./ (1 + sorption_kd p) in
  prevB ← getitem (B s) (n - 1);
  let growth := monod_arr C_mobile prevB (mu_max p) (Ks p) in
  let Cn := prevC .- velocity p *. dCdx .* dt
                  .+ dispersion p *. d2Cdx2 .* dt
                  .- growth .* dt in
  let Cn := Cn .+ infiltration_input .* dt in
  let Cn := Cn .- liner_loss in
  let Cn := maximum0 Cn in
  C' ← setitem n Cn (C s);
  B' ← setitem n (prevB .+ growth .* dt) (B s);
  g_prev ← getitem (gas s) (n - 1);
  gas' ← setitem n (g_prev + np_sum (growth .* dt .* biogas_yield p)) (gas s);
  mret {| C := C'; B := B'; gas := gas' |}.

Local Close Scope arr_scope.

(** What the caller sees: the completed arrays, or an exception together with
    the state arrays that existed when it was raised ([None]: none yet; an
    array that a later line would have allocated is [[]]). *)
Inductive Outcome :=
  | Done (s : State)
  | Raised (e : PyError) (allocated : option State).

(** [for n in range(...)]: an exception leaves the arrays as the completed
    passes made them. *)
Fixpoint for_loop (body : nat -> State -> result State)
    (ns : list nat) (s : State) : Outcome :=
  match ns with
  | [] => Done s
  | n :: ns' =>
      match body n s with
      | Ok s' => for_loop body ns' s'
      | Raise e => Raised e (Some s)
      end
  end.

(** [range(1, t_steps)]. *)
Definition range1 (stop : nat) : list nat := seq 1 (stop - 1).

(** The script from line 9 to line 82.  [np.linspace(0, _, num)] (lines 15
    and 16) raises [ValueError] for a negative [num]; [1.0 / liner_thickness]
    (line 33) raises [ZeroDivisionError] at zero; [C[0, :] = ...] (line 50)
    raises [IndexError] when the array has no row. *)
Definition run (p : Inputs) : Outcome :=
  if (nx p <? 0)%Z then Raised ValueError None else
  if (t_steps p <? 0)%Z then Raised ValueError None else
  if Qeq_bool (liner_thickness p) 0 then Raised ZeroDivisionError None else
  let rows := Z.to_nat (t_steps p) in
  let cols := Z.to_nat (nx p) in
  let C0 := zeros2 rows cols in
  let B0 := zeros2 rows cols in
  match setitem 0 (full cols (initial_conc p)) C0 with
  | Raise e => Raised e (Some {| C := C0; B := B0; gas := [] |})
  | Ok C1 =>
      match setitem 0 (full cols (initial_biomass p)) B0 with
      | Raise e => Raised e (Some {| C := C1; B := B0; gas := [] |})
      | Ok B1 =>
          for_loop (loop_body p) (range1 rows)
                   {| C := C1; B := B1; gas := zeros rows |}
      end
  end.

(** ** The loop body on rows

    What one pass stores in row [n] as a function of rows [n-1], once the
    bounds checks of the pass are known to succeed. *)

Local Open Scope arr_scope.

Definition next_growth (p : Inputs) (prevC prevB : list Q) : list Q :=
  monod_arr (prevC ./ (1 + sorption_kd p)) prevB (mu_max p) (Ks p).

Definition next_C (p : Inputs) (prevC prevB : list Q) : list Q :=
  let nx := Z.to_nat (nx p) in
  let dCdx := gradient prevC dx in
  let d2Cdx2 := gradient dCdx dx in
  let infiltration_input := <[0%nat := rain_input p * 1000]> (zeros nx) in
  let liner_loss :=
    <[(nx - 1)%nat := liner_leakage p * default 0 (last prevC)]> (zeros nx) in
  let growth := next_growth p prevC prevB in
  maximum0
    (prevC .- velocity p *. dCdx .* dt
           .+ dispersion p *. d2Cdx2 .* dt
           .- growth .* dt
           .+ infiltration_input .* dt
           .- liner_loss).

Definition next_B (p : Inputs) (prevC prevB : list Q) : list Q :=
  prevB .+ next_growth p prevC prevB .* dt.

Definition gas_increment (p : Inputs) (prevC prevB : list Q) : Q :=
  np_sum (next_growth p prevC prevB .* dt .* biogas_yield p).

Local Close Scope arr_scope.

(** Node [i] of [next_C], [next_growth] read off the array expressions. *)
Definition node_growth (p : Inputs) (prevC prevB : list Q) (i : nat) : Q :=
  monod (prevC !!! i / (1 + sorption_kd p)) (prevB !!! i) (mu_max p) (Ks p).

Definition node_C (p : Inputs) (prevC prevB : list Q) (i : nat) : Q :=
  let nx := Z.to_nat (nx p) in
  let dCdx := gradient prevC dx in
  let d2Cdx2 := gradient dCdx dx in
  Qmax (prevC !!! i
          - velocity p * (dCdx !!! i) * dt
          + dispersion p * (d2Cdx2 !!! i) * dt
          - node_growth p prevC prevB i * dt
          + (if (i =? 0)%nat then rain_input p * 1000 else 0) * dt
          - (if (i =? nx - 1)%nat
             then liner_leakage p * default 0 (last prevC) else 0))
       0.

(** Row [n] of a state was produced from row [n-1] by one pass. *)
Definition stepped (p : Inputs) (s : State) (n : nat) : Prop :=
  exists prevC prevB g,
    C s !! (n - 1)%nat = Some prevC /\
    B s !! (n - 1)%nat = Some prevB /\
    gas s !! (n - 1)%nat = Some g /\
    C s !! n = Some (next_C p prevC prevB) /\
    B s !! n = Some (next_B p prevC prevB) /\
    gas s !! n = Some (g + gas_increment p prevC prevB).

(** Shape of the state arrays: [rows] time steps of [cols] nodes. *)
Definition shaped (rows cols : nat) (s : State) : Prop :=
  length (C s) = rows /\ length (B s) = rows /\ length (gas s) = rows /\
  Forall (fun r => length r = cols) (C s) /\
  Forall (fun r => length r = cols) (B s).

(** The state arrays after lines 48-52. *)
Definition initial_state (p : Inputs) : State :=
  let rows := Z.to_nat (t_steps p) in
  let cols := Z.to_nat (nx p) in
  {| C := <[0%nat := full cols (initial_conc p)]> (zeros2 rows cols);
     B := <[0%nat := full cols (initial_biomass p)]> (zeros2 rows cols);
     gas := zeros rows |}.

(** The loop invariant before pass [k]: rows [0] hold the initial values and
    every row [1 .. k-1] was produced from the row before it. *)
Definition history (p : Inputs) (k : nat) (s : State) : Prop :=
  let rows := Z.to_nat (t_steps p) in
  let cols := Z.to_nat (nx p) in
  shaped rows cols s /\
  C s !! 0%nat = Some (full cols (initial_conc p)) /\
  B s !! 0%nat = Some (full cols (initial_biomass p)) /\
  gas s !! 0%nat = Some 0 /\
  forall n, (1 <= n < k)%nat -> stepped p s n.

(** Every entry of a row equals [c]. *)
Definition uniform (c : Q) (row : list Q) : Prop := Forall (fun x => x == c) row.

(** ** The stepper as the specification words it, node by node *)

Module Spec.

(** Central difference of [f] at node [i], one-sided at the two ends. *)
Definition central_diff (f : list Q) (h : Q) (i : nat) : Q :=
  let n := length f in
  if (i =? 0)%nat then (f !!! 1%nat - f !!! 0%nat) / h
  else if (i =? n - 1)%nat then (f !!! (n - 1)%nat - f !!! (n - 2)%nat) / h
  else (f !!! (i + 1)%nat - f !!! (i - 1)%nat) / (2 * h).

Definition derivative (f : list Q) (h : Q) : list Q :=
  (fun i => central_diff f h i) <$> seq 0 (length f).

(** Monod rate. *)
Definition rate (c b mu_max Ks : Q) : Q := mu_max * c / (Ks + c) * b.

Definition growth (p : Inputs) (prevC prevB : list Q) (i : nat) : Q :=
  rate (prevC !!! i / (1 + sorption_kd p)) (prevB !!! i) (mu_max p) (Ks p).

Definition infiltration (p : Inputs) (i : nat) : Q :=
  if (i =? 0)%nat
  then (rainfall_rate p / 1000 * infiltration_coeff p) * 1000
  else 0.

Definition liner_loss (p : Inputs) (prevC : list Q) (i : nat) : Q :=
  let last := (length prevC - 1)%nat in
  if (i =? last)%nat
  then (liner_perm p / liner_thickness p) * dt * 86400 * (prevC !!! last)
  else 0.

(** [C[n,i]] from rows [n-1]: the update formula, then the clamp. *)
Definition concentration (p : Inputs) (prevC prevB : list Q) (i : nat) : Q :=
  let dCdx := derivative prevC dx in
  let d2Cdx2 := derivative dCdx dx in
  Qmax (prevC !!! i
          - velocity p * (dCdx !!! i) * dt
          + dispersion p * (d2Cdx2 !!! i) * dt
          - growth p prevC prevB i * dt
          + infiltration p i * dt
          - liner_loss p prevC i)
       0.

End Spec.

(** ** Parameter sets that differ in one boundary parameter *)

Definition with_rain (p : Inputs) (rate coeff : Q) : Inputs :=
  {| length_ := length_ p; time_days := time_days p;
     velocity := velocity p; dispersion := dispersion p;
     rainfall_rate := rate; infiltration_coeff := coeff;
     liner_thickness := liner_thickness p; liner_perm := liner_perm p;
     sorption_kd := sorption_kd p;
     initial_conc := initial_conc p; initial_biomass := initial_biomass p;
     mu_max := mu_max p; Ks := Ks p; biogas_yield := biogas_yield p |}.

Definition with_liner (p : Inputs) (thickness perm : Q) : Inputs :=
  {| length_ := length_ p; time_days := time_days p;
     velocity := velocity p; dispersion := dispersion p;
     rainfall_rate := rainfall_rate p;
     infiltration_coeff := infiltration_coeff p;
     liner_thickness := thickness; liner_perm := perm;
     sorption_kd := sorption_kd p;
     initial_conc := initial_conc p; initial_biomass := initial_biomass p;
     mu_max := mu_max p; Ks := Ks p; biogas_yield := biogas_yield p |}.

(** ** Concrete parameter sets *)

(** The default position of every widget (third argument of each call). *)
Definition defaults : Inputs :=
  {| length_ := 30; time_days := 100;
     velocity := 0.05; dispersion := 0.01;
     rainfall_rate := 10; infiltration_coeff := 0.5;
     liner_thickness := 1; liner_perm := 1 # 1000000000;
     sorption_kd := 1;
     initial_conc := 100; initial_biomass := 50;
     mu_max := 0.1; Ks := 50; biogas_yield := 0.5 |}.

(** The uniform scenario: ten nodes, five rows, no rain, no leakage, no
    growth; the four values the scenario leaves open are arguments. *)
Definition scenario (coeff thickness ks yield : Q) : Inputs :=
  {| length_ := 10; time_days := 5;
     velocity := 0.05; dispersion := 0.01;
     rainfall_rate := 0; infiltration_coeff := coeff;
     liner_thickness := thickness; liner_perm := 0;
     sorption_kd := 0;
     initial_conc := 100; initial_biomass := 50;
     mu_max := 0; Ks := ks; biogas_yield := yield |}.

(** The defaults with an impermeable liner: permeability 0 is outside the
    documented domain (permeability > 0). *)
Definition impermeable : Inputs := with_liner defaults 1 0.

(** The ranges the widgets allow (first two arguments of each call). *)
Definition in_widget_range (p : Inputs) : Prop :=
  (5 <= length_ p <= 100)%Z /\ (10 <= time_days p <= 365)%Z /\
  0.001 <= velocity p <= 1 /\ 0.001 <= dispersion p <= 1 /\
  0 <= rainfall_rate p <= 100 /\ 0 <= infiltration_coeff p <= 1 /\
  0.1 <= liner_thickness p <= 5 /\
  (1 # 10000000000) <= liner_perm p <= (1 # 1000000) /\
  0 <= sorption_kd p <= 10 /\
  0 <= initial_conc p <= 1000 /\ 1 <= initial_biomass p <= 500 /\
  0.001 <= mu_max p <= 1 /\ 0.1 <= Ks p <= 500 /\
  0.1 <= biogas_yield p <= 1.

(** The domain the specification documents for a parameter set. *)
Definition in_documented_domain (p : Inputs) : Prop :=
  0 <= velocity p /\ 0 <= dispersion p /\ 0 <= rainfall_rate p /\
  0 <= infiltration_coeff p <= 1 /\ 0 < liner_thickness p /\
  0 < liner_perm p /\ 0 <= sorption_kd p /\ 0 < mu_max p /\ 0 < Ks p /\
  0 < biogas_yield p /\ (2 <= nx p)%Z /\ (1 <= t_steps p)%Z.

(** A two-node, two-row run with every process active, small enough to
    evaluate: its result is [small_result]. *)
Definition small : Inputs :=
  {| length_ := 2; time_days := 2;
     velocity := 0.05; dispersion := 0.01;
     rainfall_rate := 10; infiltration_coeff := 0.5;
     liner_thickness := 1; liner_perm := 1 # 1000000000;
     sorption_kd := 1;
     initial_conc := 100; initial_biomass := 50;
     mu_max := 0.1; Ks := 50; biogas_yield := 0.5 |}.

Definition small_result : State :=
  Eval vm_compute in
    match run small with Done s => s | Raised _ _ => initial_state small end.

(** ** The pass on binary64 floats

    The same lines of the loop body (60-82) over the kernel's IEEE 754
    binary64 numbers, with their rounding, infinities and NaN.  Rows are
    passed in and out. *)

Module F64.

Local Open Scope float_scope.

#[global] Instance float_inhabited : Inhabited float := populate 0.

Record Params := {
  nx : nat;
  velocity : float;
  dispersion : float;
  rainfall_rate : float;
  infiltration_coeff : float;
  liner_thickness : float;
  liner_perm : float;
  sorption_kd : float;
  mu_max : float;
  Ks : float;
  biogas_yield : float
}.

Definition dx : float := 1.
Definition dt : float := 1.

Definition rain_input (p : Params) : float :=
  (rainfall_rate p / 1000) * infiltration_coeff p.

(** Line 33, when the thickness is not zero; Python raises
    [ZeroDivisionError] at [1.0 / 0.0], before the loop. *)
Definition liner_leakage (p : Params) : float :=
  liner_perm p * (1 / liner_thickness p) * dt * 86400.

Definition monod (C B mu_max Ks : float) : float := mu_max * C / (Ks + C) * B.

Definition zeros (n : nat) : list float := replicate n 0.
Definition vadd (a b : list float) : list float := zip_with PrimFloat.add a b.
Definition vsub (a b : list float) : list float := zip_with PrimFloat.sub a b.
Definition scal_l (k : float) (a : list float) : list float :=
  (fun x => k * x) <$> a.
Definition scal_r (a : list float) (k : float) : list float :=
  (fun x => x * k) <$> a.
Definition div_r (a : list float) (k : float) : list float :=
  (fun x => x / k) <$> a.

(** [np.maximum(x, 0)]: [x] when [x > 0] or [x] is NaN, else [+0.0] (also
    for [x = -0.0]). *)
Definition maximum0 (x : float) : float :=
  if (0 <? x) || is_nan x then x else 0.

(** [np.sum], used here on rows of two numbers, where it is the sum of the
    two.  (On longer rows NumPy groups the additions in an order of its own,
    which this fold does not follow; neither does it follow the sign of a sum
    that is zero, which cannot reach [gas]: [gas] starts at [+0.0].) *)
Definition np_sum (a : list float) : float := fold_left PrimFloat.add a 0.

Definition gradient (f : list float) (h : float) : list float :=
  let n := length f in
  let interior :=
    zip_with (fun a b => (a - b) / (2 * h)) (drop 2 f) (take (n - 2) f) in
  [(f !!! 1%nat - f !!! 0%nat) / h]
    ++ interior
    ++ [(f !!! (n - 1)%nat - f !!! (n - 2)%nat) / h].

Definition np_gradient (f : list float) (h : float) : result (list float) :=
  if (length f <? 2)%nat then Raise ValueError else Ok (gradient f h).

(** What one pass computes from rows [n-1]. *)
Record Rows := {
  unclamped : list float;   (* [C[n, :]] after line 78 *)
  newC : list float;        (* [C[n, :]] after line 79 *)
  newB : list float;        (* [B[n, :]] after line 81 *)
  added_gas : float         (* [np.sum(growth * dt * biogas_yield)], line 82 *)
}.

Definition pass (p : Params) (prevC prevB : list float) : result Rows :=
  dCdx ← np_gradient prevC dx;
  d2Cdx2 ← np_gradient dCdx dx;
  infiltration_input ← setitem 0 (rain_input p * 1000) (zeros (nx p));
  c_last ← getitem_last prevC;
  liner_loss ← setitem_last (liner_leakage p * c_last) (zeros (nx p));
  let C_mobile := div_r prevC (1 + sorption_kd p) in
  let growth :=
    zip_with (fun c b => monod c b (mu_max p) (Ks p)) C_mobile prevB in
  let Cn :=
    vsub (vadd (vsub prevC (scal_r (scal_l (velocity p) dCdx) dt))
               (scal_r (scal_l (dispersion p) d2Cdx2) dt))
         (scal_r growth dt) in
  let Cn := vadd Cn (scal_r infiltration_input dt) in
  let Cn := vsub Cn liner_loss in
  mret {| unclamped := Cn;
          newC := maximum0 <$> Cn;
          newB := vadd prevB (scal_r growth dt);
          added_gas := np_sum (scal_r (scal_r growth dt) (biogas_yield p)) |}.

(** *** The update node by node, as the specification words it *)

(** Central difference of [f] at node [i], one-sided at the two ends. *)
Definition central_diff (f : list float) (h : float) (i : nat) : float :=
  let n := length f in
  if (i =? 0)%nat then (f !!! 1%nat - f !!! 0%nat) / h
  else if (i =? n - 1)%nat then (f !!! (n - 1)%nat - f !!! (n - 2)%nat) / h
  else (f !!! (i + 1)%nat - f !!! (i - 1)%nat) / (2 * h).

Definition derivative (f : list float) (h : float) : list float :=
  (fun i => central_diff f h i) <$> seq 0 (length f).

Definition node_growth (p : Params) (prevC prevB : list float) (i : nat)
    : float :=
  monod (prevC !!! i / (1 + sorption_kd p)) (prevB !!! i) (mu_max p) (Ks p).

Definition node_infiltration (p : Params) (i : nat) : float :=
  if (i =? 0)%nat
  then (rainfall_rate p / 1000 * infiltration_coeff p) * 1000
  else 0.

(** The liner loss with leakage coefficient [leak]. *)
Definition node_liner_loss (leak : float) (prevC : list float) (i : nat)
    : float :=
  let last := (length prevC - 1)%nat in
  if (i =? last)%nat then leak * (prevC !!! last) else 0.

(** The updated concentration at node [i] before the clamp. *)
Definition node_update (leak : float) (p : Params)
    (prevC prevB : list float) (i : nat) : float :=
  let dCdx := derivative prevC dx in
  let d2Cdx2 := derivative dCdx dx in
  prevC !!! i
    - velocity p * (dCdx !!! i) * dt
    + dispersion p * (d2Cdx2 !!! i) * dt
    - node_growth p prevC prevB i * dt
    + node_infiltration p i * dt
    - node_liner_loss leak prevC i.

(** The biomass at node [i]. *)
Definition node_biomass (p : Params) (prevC prevB : list float) (i : nat)
    : float :=
  prevB !!! i + node_growth p prevC prevB i * dt.

(** The leakage coefficient as [permeability / thickness * dt_seconds]. *)
Definition quotient_leakage (p : Params) : float :=
  liner_perm p / liner_thickness p * dt * 86400.

(** *** Concrete parameter sets *)

(** Two nodes and [mu_max = 10]; every value is a binary64 number. *)
Definition hot : Params :=
  {| nx := 2; velocity := 0.5; dispersion := 0.25;
     rainfall_rate := 10; infiltration_coeff := 0.5;
     liner_thickness := 1; liner_perm := 0x1p-30;
     sorption_kd := 1; mu_max := 10; Ks := 50; biogas_yield := 0.5 |}.

(** [2^1023], about [8.99e307]. *)
Definition huge : float := 0x1p1023.

#[local] Set Warnings "-inexact-float".

(** Two nodes with the default position of every widget except the liner:
    thickness 0.1 and permeability 9e-7, both within their ranges.  A decimal
    stands for the nearest binary64 number, as in Python. *)
Definition leaky : Params :=
  {| nx := 2; velocity := 0.05; dispersion := 0.01;
     rainfall_rate := 10; infiltration_coeff := 0.5;
     liner_thickness := 0.1; liner_perm := 9e-7;
     sorption_kd := 1; mu_max := 0.1; Ks := 50; biogas_yield := 0.5 |}.

(** Two adjacent binary64 numbers just above 100, and a large one. *)
Definition c_low : float := 0x1.9000000000009p+6.
Definition c_high : float := 0x1.900000000000ap+6.
Definition c_large : float := 7.2887710762793126e+17.

#[local] Set Warnings "+inexact-float".

End F64.

(** ** Rows that agree around a node *)

(** [a] and [b] have the same entries at every node within [r] of node [i]. *)
Definition agree_near (r i : nat) (a b : list Q) : Prop :=
  forall j, (i - r <= j <= i + r)%nat -> a !! j = b !! j.

(** ** More small parameter sets *)

(** Three nodes, two rows, no transport; its result is [still_result]. *)
Definition still : Inputs :=
  {| length_ := 3; time_days := 2;
     velocity := 0; dispersion := 0;
     rainfall_rate := 10; infiltration_coeff := 0.5;
     liner_thickness := 1; liner_perm := 1 # 1000000000;
     sorption_kd := 1;
     initial_conc := 100; initial_biomass := 50;
     mu_max := 0.1; Ks := 50; biogas_yield := 0.5 |}.

Definition still_result : State :=
  Eval vm_compute in
    match run still with Done s => s | Raised _ _ => initial_state still end.

(** Five nodes, two rows, the defaults otherwise; and its initial state with
    the concentration of the last node of row 0 replaced by 7. *)
Definition wide : Inputs :=
  {| length_ := 5; time_days := 2;
     velocity := 0.05; dispersion := 0.01;
     rainfall_rate := 10; infiltration_coeff := 0.5;
     liner_thickness := 1; liner_perm := 1 # 1000000000;
     sorption_kd := 1;
     initial_conc := 100; initial_biomass := 50;
     mu_max := 0.1; Ks := 50; biogas_yield := 0.5 |}.

Definition wide_dented : State :=
  {| C := <[0%nat := [100; 100; 100; 100; 7]]> (C (initial_state wide));
     B := B (initial_state wide);
     gas := gas (initial_state wide) |}.

(** * Properties *)

(** ** Arrays *)

Section Arrays.

Implicit Types (a b f : list Q) (k h v : Q) (i n : nat).

Lemma length_zeros n : length (zeros n) = n.
Proof. apply length_replicate. Qed.

Lemma length_full n v : length (full n v) = n.
Proof. apply length_replicate. Qed.

Lemma length_vadd a b : length a = length b -> length (vadd a b) = length a.
Proof. intros E. unfold vadd. rewrite length_zip_with. lia. Qed.

Lemma length_vsub a b : length a = length b -> length (vsub a b) = length a.
Proof. intros E. unfold vsub. rewrite length_zip_with. lia. Qed.

Lemma length_scal_l k a : length (scal_l k a) = length a.
Proof. apply length_fmap. Qed.

Lemma length_scal_r a k : length (scal_r a k) = length a.
Proof. apply length_fmap. Qed.

Lemma length_div_r a k : length (div_r a k) = length a.
Proof. apply length_fmap. Qed.

Lemma length_maximum0 a : length (maximum0 a) = length a.
Proof. apply length_fmap. Qed.

Lemma length_monod_arr a b mu ks :
  length a = length b -> length (monod_arr a b mu ks) = length a.
Proof. intros E. unfold monod_arr. rewrite length_zip_with. lia. Qed.

Lemma length_gradient f h : (2 <= length f)%nat -> length (gradient f h) = length f.
Proof.
  intros L. unfold gradient. cbn [length app].
  rewrite length_app, length_zip_with, length_drop, length_take. cbn. lia.
Qed.

Lemma lookup_vadd a b i x y :
  a !! i = Some x -> b !! i = Some y -> vadd a b !! i = Some (x + y).
Proof. intros Ha Hb. unfold vadd. rewrite lookup_zip_with, Ha, Hb. reflexivity. Qed.

Lemma lookup_vsub a b i x y :
  a !! i = Some x -> b !! i = Some y -> vsub a b !! i = Some (x - y).
Proof. intros Ha Hb. unfold vsub. rewrite lookup_zip_with, Ha, Hb. reflexivity. Qed.

Lemma lookup_scal_l k a i x : a !! i = Some x -> scal_l k a !! i = Some (k * x).
Proof. intros Ha. unfold scal_l. rewrite list_lookup_fmap, Ha. reflexivity. Qed.

Lemma lookup_scal_r a k i x : a !! i = Some x -> scal_r a k !! i = Some (x * k).
Proof. intros Ha. unfold scal_r. rewrite list_lookup_fmap, Ha. reflexivity. Qed.

Lemma lookup_div_r a k i x : a !! i = Some x -> div_r a k !! i = Some (x / k).
Proof. intros Ha. unfold div_r. rewrite list_lookup_fmap, Ha. reflexivity. Qed.

Lemma lookup_maximum0 a i x : a !! i = Some x -> maximum0 a !! i = Some (Qmax x 0).
Proof. intros Ha. unfold maximum0. rewrite list_lookup_fmap, Ha. reflexivity. Qed.

Lemma lookup_monod_arr a b mu ks i x y :
  a !! i = Some x -> b !! i = Some y ->
  monod_arr a b mu ks !! i = Some (monod x y mu ks).
Proof. intros Ha Hb. unfold monod_arr. rewrite lookup_zip_with, Ha, Hb. reflexivity. Qed.

Lemma lookup_zeros n i : (i < n)%nat -> zeros n !! i = Some 0.
Proof. intros L. apply lookup_replicate_2, L. Qed.

(** [z[j] = v] on a fresh zero array, read back at [i]. *)
Lemma lookup_zeros_insert n j v i :
  (i < n)%nat -> (j < n)%nat ->
  <[j := v]> (zeros n) !! i = Some (if (i =? j)%nat then v else 0).
Proof.
  intros Li Lj. destruct (Nat.eqb_spec i j) as [->|N].
  - apply list_lookup_insert_eq. rewrite length_zeros. exact Lj.
  - rewrite list_lookup_insert_ne by congruence. apply lookup_zeros, Li.
Qed.

(** The gradient node by node. *)
Lemma lookup_gradient f h i :
  (2 <= length f)%nat -> (i < length f)%nat ->
  gradient f h !! i = Some (Spec.central_diff f h i).
Proof.
  intros L Li. unfold gradient, Spec.central_diff.
  destruct (Nat.eqb_spec i 0) as [->|N0]; [reflexivity|].
  destruct i as [|i]; [congruence|]. cbn [app]. rewrite lookup_cons.
  change (S i) with (1 + i)%nat.
  destruct (Nat.eqb_spec (1 + i) (length f - 1)) as [E|N1].
  - rewrite lookup_app_r; rewrite length_zip_with, length_drop, length_take.
    + replace (i - _)%nat with 0%nat by lia. reflexivity.
    + lia.
  - rewrite lookup_app_l
      by (rewrite length_zip_with, length_drop, length_take; lia).
    rewrite lookup_zip_with, lookup_drop, lookup_take_lt by lia.
    rewrite (list_lookup_lookup_total_lt f (2 + i)) by lia.
    rewrite (list_lookup_lookup_total_lt f i) by lia. cbn.
    do 3 f_equal; f_equal; lia.
Qed.

Lemma gradient_derivative f h :
  (2 <= length f)%nat -> gradient f h = Spec.derivative f h.
Proof.
  intros L. apply list_eq. intros i. unfold Spec.derivative.
  rewrite list_lookup_fmap.
  destruct (Nat.lt_ge_cases i (length f)) as [Li|Li].
  - rewrite lookup_gradient, lookup_seq_lt by assumption. reflexivity.
  - rewrite lookup_seq_ge by assumption.
    apply lookup_ge_None. rewrite length_gradient by assumption. exact Li.
Qed.

End Arrays.

(** ** One pass of the loop *)

Section Pass.

Variable p : Inputs.
Let N := Z.to_nat (nx p).

Variables prevC prevB : list Q.
Hypothesis HC : length prevC = N.
Hypothesis HB : length prevB = N.

Lemma length_next_growth : length (next_growth p prevC prevB) = N.
Proof.
  unfold next_growth. rewrite length_monod_arr; rewrite length_div_r; lia.
Qed.

Lemma lookup_next_growth i :
  (i < N)%nat ->
  next_growth p prevC prevB !! i = Some (node_growth p prevC prevB i).
Proof.
  intros Li. unfold next_growth, node_growth.
  apply lookup_monod_arr; [apply lookup_div_r|];
    apply list_lookup_lookup_total_lt; lia.
Qed.

Lemma length_next_B : length (next_B p prevC prevB) = N.
Proof.
  unfold next_B. rewrite length_vadd; rewrite ?length_scal_r, ?length_next_growth; lia.
Qed.

Lemma lookup_next_B i :
  (i < N)%nat ->
  next_B p prevC prevB !! i
  = Some (prevB !!! i + node_growth p prevC prevB i * dt).
Proof.
  intros Li. unfold next_B.
  apply lookup_vadd; [apply list_lookup_lookup_total_lt; lia|].
  apply lookup_scal_r, lookup_next_growth, Li.
Qed.

Hypothesis HN : (2 <= N)%nat.

Lemma length_next_C : length (next_C p prevC prevB) = N.
Proof.
  unfold next_C. fold N.
  rewrite length_maximum0.
  repeat first
    [ rewrite length_vsub | rewrite length_vadd
    | rewrite length_scal_r | rewrite length_scal_l
    | rewrite length_insert | rewrite length_zeros
    | rewrite length_next_growth
    | rewrite length_gradient ]; lia.
Qed.

Lemma lookup_next_C i :
  (i < N)%nat -> next_C p prevC prevB !! i = Some (node_C p prevC prevB i).
Proof.
  intros Li. unfold next_C, node_C. fold N.
  assert (G1 : length (gradient prevC dx) = N)
    by (rewrite length_gradient; lia).
  assert (G2 : length (gradient (gradient prevC dx) dx) = N)
    by (rewrite length_gradient; lia).
  apply lookup_maximum0.
  apply lookup_vsub; [apply lookup_vadd; [apply lookup_vsub;
    [apply lookup_vadd; [apply lookup_vsub|]|]|]|].
  - apply list_lookup_lookup_total_lt; lia.
  - apply lookup_scal_r, lookup_scal_l, list_lookup_lookup_total_lt; lia.
  - apply lookup_scal_r, lookup_scal_l, list_lookup_lookup_total_lt; lia.
  - apply lookup_scal_r, lookup_next_growth, Li.
  - apply lookup_scal_r, lookup_zeros_insert; lia.
  - apply lookup_zeros_insert; lia.
Qed.

End Pass.

Lemma getitem_Some {A} (a : list A) i v : a !! i = Some v -> getitem a i = Ok v.
Proof. intros E. unfold getitem. rewrite E. reflexivity. Qed.

Lemma setitem_lt {A} (a : list A) i v :
  (i < length a)%nat -> setitem i v a = Ok (<[i := v]> a).
Proof.
  intros L. unfold setitem.
  destruct (Nat.ltb_spec i (length a)); [reflexivity | lia].
Qed.

Lemma np_gradient_Ok f h :
  (2 <= length f)%nat -> np_gradient f h = Ok (gradient f h).
Proof.
  intros L. unfold np_gradient.
  destruct (Nat.ltb_spec (length f) 2); [lia | reflexivity].
Qed.

Lemma np_gradient_short f h :
  (length f < 2)%nat -> np_gradient f h = Raise ValueError.
Proof.
  intros L. unfold np_gradient.
  destruct (Nat.ltb_spec (length f) 2); [reflexivity | lia].
Qed.

Lemma setitem_last_zeros n v :
  (1 <= n)%nat -> setitem_last v (zeros n) = Ok (<[(n - 1)%nat := v]> (zeros n)).
Proof.
  intros L. unfold setitem_last. rewrite length_zeros.
  destruct n; [lia | reflexivity].
Qed.

Lemma getitem_last_default (a : list Q) :
  (1 <= length a)%nat -> getitem_last a = Ok (default 0 (last a)).
Proof.
  intros L. unfold getitem_last.
  destruct (last a) eqn:E; [reflexivity|].
  apply last_None in E. subst a. cbn in L. lia.
Qed.

(** One more line of a pass that succeeds: rewrite it with [lem], whose side
    conditions [tac] solves, and move on to the continuation. *)
Ltac next_line lem tac := rewrite lem by tac; cbn [mbind result_bind].

(** A pass whose reads are in range and whose rows have at least two nodes
    stores the three new entries and raises nothing. *)
Lemma loop_body_Ok p n s prevC prevB g :
  C s !! (n - 1)%nat = Some prevC ->
  B s !! (n - 1)%nat = Some prevB ->
  gas s !! (n - 1)%nat = Some g ->
  length prevC = Z.to_nat (nx p) ->
  (2 <= Z.to_nat (nx p))%nat ->
  (n < length (C s))%nat -> (n < length (B s))%nat -> (n < length (gas s))%nat ->
  loop_body p n s
  = Ok {| C := <[n := next_C p prevC prevB]> (C s);
          B := <[n := next_B p prevC prevB]> (B s);
          gas := <[n := g + gas_increment p prevC prevB]> (gas s) |}.
Proof.
  intros EC EB Eg LC LN nC nB ng. unfold loop_body.
  next_line (getitem_Some _ _ _ EC) idtac.
  next_line np_gradient_Ok lia.
  next_line np_gradient_Ok ltac:(rewrite length_gradient; lia).
  next_line @setitem_lt ltac:(rewrite length_zeros; lia).
  next_line getitem_last_default lia.
  next_line setitem_last_zeros lia.
  next_line (getitem_Some _ _ _ EB) idtac.
  next_line @setitem_lt assumption.
  next_line @setitem_lt assumption.
  next_line (getitem_Some _ _ _ Eg) idtac.
  next_line @setitem_lt assumption.
  reflexivity.
Qed.

(** With fewer than two nodes the first [np.gradient] raises. *)
Lemma loop_body_short p n s prevC :
  C s !! (n - 1)%nat = Some prevC -> (length prevC < 2)%nat ->
  loop_body p n s = Raise ValueError.
Proof.
  intros EC L. unfold loop_body.
  rewrite (getitem_Some _ _ _ EC). cbn [mbind result_bind].
  rewrite np_gradient_short by assumption. reflexivity.
Qed.

(** ** The loop *)

Lemma stepped_insert p s n k rc rb g :
  (n < k)%nat -> stepped p s n ->
  stepped p {| C := <[k := rc]> (C s); B := <[k := rb]> (B s);
               gas := <[k := g]> (gas s) |} n.
Proof.
  intros L (prevC & prevB & g0 & H1 & H2 & H3 & H4 & H5 & H6).
  exists prevC, prevB, g0. cbn.
  rewrite !list_lookup_insert_ne by lia. auto 7.
Qed.

Lemma shaped_insert rows cols s k rc rb g :
  shaped rows cols s -> length rc = cols -> length rb = cols ->
  shaped rows cols {| C := <[k := rc]> (C s); B := <[k := rb]> (B s);
                      gas := <[k := g]> (gas s) |}.
Proof.
  intros (H1 & H2 & H3 & H4 & H5) Lc Lb. unfold shaped. cbn.
  rewrite !length_insert. repeat split; try assumption.
  - apply Forall_insert; assumption.
  - apply Forall_insert; assumption.
Qed.

Lemma history_pass p k s :
  (1 <= k < Z.to_nat (t_steps p))%nat -> (2 <= Z.to_nat (nx p))%nat ->
  history p k s ->
  exists s', loop_body p k s = Ok s' /\ history p (S k) s'.
Proof.
  intros Lk LN (Sh & C0 & B0 & G0 & St).
  pose proof Sh as (LC & LB & Lg & FC & FB).
  destruct (lookup_lt_is_Some_2 (C s) (k - 1)) as [prevC EC]; [lia|].
  destruct (lookup_lt_is_Some_2 (B s) (k - 1)) as [prevB EB]; [lia|].
  destruct (lookup_lt_is_Some_2 (gas s) (k - 1)) as [g Eg]; [lia|].
  assert (HC : length prevC = Z.to_nat (nx p))
    by exact (proj1 (Forall_lookup _ _) FC _ _ EC).
  assert (HB : length prevB = Z.to_nat (nx p))
    by exact (proj1 (Forall_lookup _ _) FB _ _ EB).
  eexists. split.
  - apply (loop_body_Ok p k s prevC prevB g); try assumption; lia.
  - split; [|split; [|split; [|split]]]; cbn.
    + apply shaped_insert; [assumption| |].
      * apply length_next_C; assumption.
      * apply length_next_B; assumption.
    + rewrite list_lookup_insert_ne by lia. exact C0.
    + rewrite list_lookup_insert_ne by lia. exact B0.
    + rewrite list_lookup_insert_ne by lia. exact G0.
    + intros n Ln. destruct (Nat.eq_dec n k) as [->|Nk].
      * exists prevC, prevB, g. cbn.
        rewrite !list_lookup_insert_ne by lia.
        rewrite !list_lookup_insert_eq by lia. auto 7.
      * apply stepped_insert; [lia|]. apply St. lia.
Qed.

Lemma for_loop_history p m : forall k s,
  (1 <= k)%nat -> (k + m = Z.to_nat (t_steps p))%nat ->
  (m = 0%nat \/ 2 <= Z.to_nat (nx p))%nat ->
  history p k s ->
  exists s', for_loop (loop_body p) (seq k m) s = Done s'
             /\ history p (Z.to_nat (t_steps p)) s'.
Proof.
  induction m as [|m IH]; intros k s Lk E LN H.
  - exists s. split; [reflexivity|]. replace (Z.to_nat (t_steps p)) with k by lia.
    exact H.
  - destruct LN as [LN|LN]; [discriminate|].
    destruct (history_pass p k s) as (s' & Es & H'); [lia|assumption|assumption|].
    cbn [seq for_loop]. rewrite Es.
    apply IH; [lia|lia|right; assumption|assumption].
Qed.

(** ** The whole script *)

Lemma run_unfold p :
  run p =
  if (nx p <? 0)%Z then Raised ValueError None else
  if (t_steps p <? 0)%Z then Raised ValueError None else
  if Qeq_bool (liner_thickness p) 0 then Raised ZeroDivisionError None else
  if (Z.to_nat (t_steps p) =? 0)%nat
  then Raised IndexError (Some {| C := []; B := []; gas := [] |})
  else for_loop (loop_body p) (range1 (Z.to_nat (t_steps p))) (initial_state p).
Proof.
  unfold run, initial_state.
  destruct (nx p <? 0)%Z; [reflexivity|].
  destruct (t_steps p <? 0)%Z; [reflexivity|].
  destruct (Qeq_bool (liner_thickness p) 0); [reflexivity|].
  destruct (Z.to_nat (t_steps p)) as [|T]; [reflexivity|].
  cbn [Nat.eqb]. unfold setitem, zeros2. rewrite !length_replicate.
  reflexivity.
Qed.

Lemma history_initial p :
  (1 <= Z.to_nat (t_steps p))%nat -> history p 1 (initial_state p).
Proof.
  intros LT. unfold history, initial_state, shaped, zeros2. cbn.
  rewrite !length_insert, !length_replicate, length_zeros.
  repeat split.
  - apply Forall_insert; [|apply length_full].
    apply Forall_replicate, length_zeros.
  - apply Forall_insert; [|apply length_full].
    apply Forall_replicate, length_zeros.
  - apply list_lookup_insert_eq. rewrite length_replicate. lia.
  - apply list_lookup_insert_eq. rewrite length_replicate. lia.
  - apply lookup_zeros. lia.
  - intros n Ln. lia.
Qed.

(** The conditions under which every line of the script succeeds. *)
Lemma run_total p :
  (0 <= nx p)%Z -> (1 <= t_steps p)%Z -> ~ liner_thickness p == 0 ->
  (t_steps p = 1 \/ 2 <= nx p)%Z ->
  exists s, run p = Done s /\ history p (Z.to_nat (t_steps p)) s.
Proof.
  intros Hn Ht Hl Hs. rewrite run_unfold.
  destruct (Z.ltb_spec (nx p) 0); [lia|].
  destruct (Z.ltb_spec (t_steps p) 0); [lia|].
  destruct (Qeq_bool (liner_thickness p) 0) eqn:E;
    [apply Qeq_bool_iff in E; contradiction|].
  destruct (Nat.eqb_spec (Z.to_nat (t_steps p)) 0); [lia|].
  unfold range1. apply for_loop_history.
  - lia.
  - lia.
  - destruct Hs as [Hs|Hs]; [left|right]; lia.
  - apply history_initial. lia.
Qed.

(** Two or more rows of fewer than two nodes: the first pass raises. *)
Lemma run_short p :
  (0 <= nx p < 2)%Z -> (2 <= t_steps p)%Z -> ~ liner_thickness p == 0 ->
  run p = Raised ValueError (Some (initial_state p)).
Proof.
  intros Hn Ht Hl. rewrite run_unfold.
  destruct (Z.ltb_spec (nx p) 0); [lia|].
  destruct (Z.ltb_spec (t_steps p) 0); [lia|].
  destruct (Qeq_bool (liner_thickness p) 0) eqn:E;
    [apply Qeq_bool_iff in E; contradiction|].
  destruct (Nat.eqb_spec (Z.to_nat (t_steps p)) 0); [lia|].
  unfold range1.
  destruct (Z.to_nat (t_steps p) - 1)%nat as [|m] eqn:Em; [lia|].
  cbn [seq for_loop].
  rewrite (loop_body_short p 1 (initial_state p) (full (Z.to_nat (nx p)) (initial_conc p))).
  - reflexivity.
  - apply (history_initial p). lia.
  - rewrite length_full. lia.
Qed.

(** No row at all: line 50 raises, after lines 48 and 49 allocated. *)
Lemma run_no_rows p :
  (0 <= nx p)%Z -> t_steps p = 0%Z -> ~ liner_thickness p == 0 ->
  run p = Raised IndexError (Some {| C := []; B := []; gas := [] |}).
Proof.
  intros Hn Ht Hl. rewrite run_unfold.
  destruct (Z.ltb_spec (nx p) 0); [lia|].
  destruct (Z.ltb_spec (t_steps p) 0); [lia|].
  destruct (Qeq_bool (liner_thickness p) 0) eqn:E;
    [apply Qeq_bool_iff in E; contradiction|].
  rewrite Ht. reflexivity.
Qed.

(** A completed run went through every pass; it has a row, and two nodes or
    more unless it has that one row only. *)
Lemma run_Done_history p s :
  run p = Done s ->
  (1 <= Z.to_nat (t_steps p))%nat /\
  (Z.to_nat (t_steps p) = 1 \/ 2 <= Z.to_nat (nx p))%nat /\
  history p (Z.to_nat (t_steps p)) s.
Proof.
  intros R.
  destruct (Z.ltb_spec (nx p) 0) as [Hn|Hn].
  { rewrite run_unfold in R. apply Z.ltb_lt in Hn. rewrite Hn in R. discriminate. }
  destruct (Z.ltb_spec (t_steps p) 0) as [Ht|Ht].
  { rewrite run_unfold in R. apply Z.ltb_lt in Ht.
    rewrite Ht in R. destruct (nx p <? 0)%Z; discriminate. }
  destruct (Qeq_bool (liner_thickness p) 0) eqn:E.
  { rewrite run_unfold, E in R.
    destruct (nx p <? 0)%Z; [discriminate|].
    destruct (t_steps p <? 0)%Z; discriminate. }
  assert (Hl : ~ liner_thickness p == 0).
  { intros Q. apply Qeq_bool_iff in Q. congruence. }
  destruct (Z.eq_dec (t_steps p) 0%Z) as [T0|T0].
  { rewrite run_unfold, E, T0 in R.
    destruct (nx p <? 0)%Z; discriminate. }
  destruct (Z_lt_le_dec (nx p) 2%Z) as [N2|N2];
    [destruct (Z.eq_dec (t_steps p) 1%Z) as [T1|T1]|].
  - destruct (run_total p) as (s' & R' & H'); [lia|lia|assumption|lia|].
    rewrite R in R'. injection R' as <-.
    split; [lia|]. split; [left; lia|assumption].
  - rewrite run_short in R by (assumption || lia). discriminate.
  - destruct (run_total p) as (s' & R' & H'); [lia|lia|assumption|lia|].
    rewrite R in R'. injection R' as <-.
    split; [lia|]. split; [right; lia|assumption].
Qed.

(** ** Monod kinetics *)

Lemma monod_nonneg c b mu ks :
  0 <= mu -> 0 < ks -> 0 <= c -> 0 <= b -> 0 <= monod c b mu ks.
Proof.
  intros Hm Hk Hc Hb. unfold monod.
  apply Qmult_le_0_compat; [|exact Hb].
  apply Qle_shift_div_l; [lra|].
  rewrite Qmult_0_l. apply Qmult_le_0_compat; assumption.
Qed.

Lemma monod_le c1 c2 b mu ks :
  0 <= mu -> 0 < ks -> 0 <= b -> 0 <= c1 -> c1 <= c2 ->
  monod c1 b mu ks <= monod c2 b mu ks.
Proof.
  intros Hm Hk Hb H1 H12. unfold monod.
  apply Qmult_le_compat_r; [|exact Hb].
  apply Qle_shift_div_l; [lra|].
  assert (E : mu * c1 / (ks + c1) * (ks + c2)
              == mu * c1 * (ks + c2) / (ks + c1)) by (field; lra).
  rewrite E. apply Qle_shift_div_r; [lra|].
  assert (F : 0 <= mu * (ks * (c2 - c1)))
    by (apply Qmult_le_0_compat; [assumption|apply Qmult_le_0_compat; lra]).
  lra.
Qed.

Lemma monod_lt c1 c2 b mu ks :
  0 < mu -> 0 < ks -> 0 < b -> 0 <= c1 -> c1 < c2 ->
  monod c1 b mu ks < monod c2 b mu ks.
Proof.
  intros Hm Hk Hb H1 H12. unfold monod.
  apply Qmult_lt_compat_r; [exact Hb|].
  apply Qlt_shift_div_l; [lra|].
  assert (E : mu * c1 / (ks + c1) * (ks + c2)
              == mu * c1 * (ks + c2) / (ks + c1)) by (field; lra).
  rewrite E. apply Qlt_shift_div_r; [lra|].
  assert (F : 0 < mu * (ks * (c2 - c1))).
  { rewrite <- (Qmult_0_r mu). apply Qmult_lt_l; [assumption|].
    rewrite <- (Qmult_0_r ks). apply Qmult_lt_l; lra. }
  lra.
Qed.

Lemma monod_bound c b mu ks :
  0 <= mu -> 0 < ks -> 0 <= b -> 0 <= c -> monod c b mu ks <= mu * b.
Proof.
  intros Hm Hk Hb Hc. unfold monod.
  apply Qmult_le_compat_r; [|exact Hb].
  apply Qle_shift_div_r; [lra|].
  assert (F : 0 <= mu * ks) by (apply Qmult_le_0_compat; lra).
  lra.
Qed.

(** The gap to the ceiling [mu * b] is [mu * b * ks / (ks + c)]. *)
Lemma monod_gap c b mu ks :
  0 < ks -> 0 <= c -> mu * b - monod c b mu ks == mu * b * ks / (ks + c).
Proof. intros Hk Hc. unfold monod. field. lra. Qed.

Lemma monod_saturates b mu ks eps :
  0 <= mu -> 0 < ks -> 0 <= b -> 0 < eps ->
  exists c0, 0 <= c0 /\
    forall c, c0 <= c -> mu * b - eps <= monod c b mu ks.
Proof.
  intros Hm Hk Hb He.
  assert (Hn : 0 <= mu * b * ks).
  { apply Qmult_le_0_compat; [apply Qmult_le_0_compat|]; lra. }
  exists (mu * b * ks / eps).
  assert (H0 : 0 <= mu * b * ks / eps) by (apply Qle_shift_div_l; lra).
  split; [exact H0|]. intros c Hc.
  assert (G := monod_gap c b mu ks Hk ltac:(lra)).
  assert (L : mu * b * ks / (ks + c) <= eps).
  { apply Qle_shift_div_r; [lra|].
    assert (E : eps * (mu * b * ks / eps) == mu * b * ks) by (field; lra).
    assert (F : eps * (mu * b * ks / eps) <= eps * c)
      by (apply Qmult_le_l; assumption).
    assert (K : 0 <= eps * ks) by (apply Qmult_le_0_compat; lra).
    lra. }
  lra.
Qed.

(** ** Signs along a completed history *)

Lemma Qmax0_nonneg x : 0 <= Qmax x 0.
Proof. apply Q.le_max_r. Qed.

Lemma maximum0_nonneg a : Forall (Qle 0) (maximum0 a).
Proof. unfold maximum0. apply Forall_fmap, Forall_true. intros x. apply Qmax0_nonneg. Qed.


Lemma lookup_total_nonneg (a : list Q) i : Forall (Qle 0) a -> 0 <= a !!! i.
Proof.
  intros F. destruct (a !! i) as [x|] eqn:E.
  - rewrite (list_lookup_total_correct _ _ _ E).
    exact (proj1 (Forall_lookup _ _) F _ _ E).
  - rewrite list_lookup_total_alt, E. cbn. lra.
Qed.

Section Signs.

Variable p : Inputs.
Hypothesis Hmu : 0 <= mu_max p.
Hypothesis HKs : 0 < Ks p.
Hypothesis HKd : 0 <= sorption_kd p.

Lemma node_growth_nonneg prevC prevB i :
  Forall (Qle 0) prevC -> Forall (Qle 0) prevB ->
  0 <= node_growth p prevC prevB i.
Proof.
  intros FC FB. unfold node_growth. apply monod_nonneg; [assumption|assumption| |].
  - apply Qle_shift_div_l; [lra|]. rewrite Qmult_0_l.
    apply lookup_total_nonneg, FC.
  - apply lookup_total_nonneg, FB.
Qed.


End Signs.

Section History.

Variables (p : Inputs) (s : State).
Let T := Z.to_nat (t_steps p).
Let N := Z.to_nat (nx p).
Hypothesis Hist : history p T s.

Lemma history_rows n : (n < T)%nat <->
  (exists row, C s !! n = Some row) /\ (exists row, B s !! n = Some row)
  /\ (exists g, gas s !! n = Some g).
Proof.
  destruct Hist as ((LC & LB & Lg & _) & _). split.
  - intros L. split; [|split]; apply lookup_lt_is_Some_2; lia.
  - intros ([r E] & _). apply lookup_lt_Some in E. lia.
Qed.

Lemma history_length_C n row : C s !! n = Some row -> length row = N.
Proof.
  destruct Hist as ((_ & _ & _ & FC & _) & _).
  intros E. exact (proj1 (Forall_lookup _ _) FC _ _ E).
Qed.

Lemma history_length_B n row : B s !! n = Some row -> length row = N.
Proof.
  destruct Hist as ((_ & _ & _ & _ & FB) & _).
  intros E. exact (proj1 (Forall_lookup _ _) FB _ _ E).
Qed.

(** Rows [n-1] and [n] of a completed history, for [1 <= n < t_steps]. *)
Lemma history_step n prevC prevB :
  (1 <= n)%nat ->
  C s !! (n - 1)%nat = Some prevC -> B s !! (n - 1)%nat = Some prevB ->
  (exists row, C s !! n = Some row \/ B s !! n = Some row)
  \/ (exists g, gas s !! n = Some g) ->
  C s !! n = Some (next_C p prevC prevB) /\
  B s !! n = Some (next_B p prevC prevB) /\
  exists g, gas s !! (n - 1)%nat = Some g /\
            gas s !! n = Some (g + gas_increment p prevC prevB).
Proof.
  intros Ln EC EB In.
  assert (Lt : (n < T)%nat).
  { destruct Hist as ((LC & LB & Lg & _) & _).
    destruct In as [[row [E|E]]|[g E]]; apply lookup_lt_Some in E; lia. }
  destruct Hist as (_ & _ & _ & _ & St).
  destruct (St n ltac:(lia)) as (pc & pb & g & H1 & H2 & H3 & H4 & H5 & H6).
  rewrite EC in H1. injection H1 as <-.
  rewrite EB in H2. injection H2 as <-.
  split; [assumption|]. split; [assumption|]. exists g. split; assumption.
Qed.

Lemma history_C_nonneg n row :
  0 <= initial_conc p -> C s !! n = Some row -> Forall (Qle 0) row.
Proof.
  intros H0 E. destruct n as [|n].
  - destruct Hist as (_ & C0 & _). rewrite C0 in E. injection E as <-.
    apply Forall_replicate, H0.
  - assert (Lt : (n < T)%nat).
    { apply lookup_lt_Some in E. destruct Hist as ((LC & _) & _). lia. }
    destruct (proj1 (history_rows n) Lt) as ([pc Ec] & [pb Eb] & _).
    destruct (history_step (S n) pc pb) as (EC' & _).
    + lia.
    + rewrite Nat.sub_1_r. exact Ec.
    + rewrite Nat.sub_1_r. exact Eb.
    + left. exists row. left. exact E.
    + rewrite E in EC'. injection EC' as ->. apply maximum0_nonneg.
Qed.

Hypothesis Hmu : 0 <= mu_max p.
Hypothesis HKs : 0 < Ks p.
Hypothesis HKd : 0 <= sorption_kd p.
Hypothesis HC0 : 0 <= initial_conc p.
Hypothesis HB0 : 0 <= initial_biomass p.

Lemma history_B_nonneg n : forall row,
  B s !! n = Some row -> Forall (Qle 0) row.
Proof.
  induction n as [|n IH]; intros row E.
  - destruct Hist as (_ & _ & B0 & _). rewrite B0 in E. injection E as <-.
    apply Forall_replicate, HB0.
  - assert (Lt : (n < T)%nat).
    { apply lookup_lt_Some in E. destruct Hist as ((_ & LB & _) & _). lia. }
    destruct (proj1 (history_rows n) Lt) as ([pc Ec] & [pb Eb] & _).
    destruct (history_step (S n) pc pb) as (_ & EB' & _).
    + lia.
    + rewrite Nat.sub_1_r. exact Ec.
    + rewrite Nat.sub_1_r. exact Eb.
    + left. exists row. right. exact E.
    + rewrite E in EB'. injection EB' as ->.
      pose proof (history_length_C _ _ Ec) as LC.
      pose proof (history_length_B _ _ Eb) as LB.
      pose proof (history_C_nonneg n pc HC0 Ec) as FC.
      pose proof (IH pb Eb) as FB.
      apply Forall_lookup. intros i x Ei.
      assert (Li : (i < N)%nat).
      { apply lookup_lt_Some in Ei.
        rewrite (length_next_B p pc pb LC LB) in Ei. exact Ei. }
      rewrite (lookup_next_B p pc pb LC LB i Li) in Ei. injection Ei as <-.
      pose proof (lookup_total_nonneg pb i FB).
      pose proof (node_growth_nonneg p Hmu HKs HKd pc pb i FC FB).
      unfold dt. lra.
Qed.

End History.

(** ** Inversion of a pass that did not raise *)

Lemma getitem_Ok {A} (a : list A) i v : getitem a i = Ok v -> a !! i = Some v.
Proof. unfold getitem. destruct (a !! i); intros E; congruence. Qed.

Lemma setitem_Ok {A} (a a' : list A) i v :
  setitem i v a = Ok a' -> (i < length a)%nat /\ a' = <[i := v]> a.
Proof.
  unfold setitem. destruct (Nat.ltb_spec i (length a)); intros E; [|discriminate].
  split; [assumption | congruence].
Qed.

Lemma np_gradient_inv f h g :
  np_gradient f h = Ok g -> (2 <= length f)%nat /\ g = gradient f h.
Proof.
  unfold np_gradient. destruct (Nat.ltb_spec (length f) 2); intros E; [discriminate|].
  split; [assumption | congruence].
Qed.

Lemma bind_Ok {A B} (m : result A) (k : A -> result B) b :
  (m ≫= k) = Ok b -> exists a, m = Ok a /\ k a = Ok b.
Proof. destruct m as [a|e]; cbn; intros E; [eauto | discriminate]. Qed.

Lemma loop_body_inv p n s s' :
  loop_body p n s = Ok s' ->
  exists prevC prevB g,
    C s !! (n - 1)%nat = Some prevC /\
    B s !! (n - 1)%nat = Some prevB /\
    gas s !! (n - 1)%nat = Some g /\
    (2 <= length prevC)%nat /\ (1 <= Z.to_nat (nx p))%nat /\
    (n < length (C s))%nat /\ (n < length (B s))%nat /\
    (n < length (gas s))%nat /\
    s' = {| C := <[n := next_C p prevC prevB]> (C s);
            B := <[n := next_B p prevC prevB]> (B s);
            gas := <[n := g + gas_increment p prevC prevB]> (gas s) |}.
Proof.
  unfold loop_body. intros E.
  apply bind_Ok in E as (prevC & EC & E). apply getitem_Ok in EC.
  apply bind_Ok in E as (dCdx & E1 & E). apply np_gradient_inv in E1 as [L1 ->].
  apply bind_Ok in E as (d2 & E2 & E). apply np_gradient_inv in E2 as [L2 ->].
  apply bind_Ok in E as (inf & E3 & E). apply setitem_Ok in E3 as [L3 ->].
  rewrite length_zeros in L3.
  apply bind_Ok in E as (cl & E4 & E).
  rewrite getitem_last_default in E4 by lia. injection E4 as <-.
  apply bind_Ok in E as (ll & E5 & E).
  rewrite setitem_last_zeros in E5 by lia. injection E5 as <-.
  apply bind_Ok in E as (prevB & EB & E). apply getitem_Ok in EB.
  apply bind_Ok in E as (C' & E6 & E). apply setitem_Ok in E6 as [L6 ->].
  apply bind_Ok in E as (B' & E7 & E). apply setitem_Ok in E7 as [L7 ->].
  apply bind_Ok in E as (g & Eg & E). apply getitem_Ok in Eg.
  apply bind_Ok in E as (gas' & E8 & E). apply setitem_Ok in E8 as [L8 ->].
  injection E as <-.
  exists prevC, prevB, g. repeat (split; [assumption || lia|]). reflexivity.
Qed.

(** ** Sums *)

Lemma np_sum_cons x a : np_sum (x :: a) = x + np_sum a.
Proof. reflexivity. Qed.

Lemma np_sum_scal_r a k : np_sum (scal_r a k) == np_sum a * k.
Proof.
  induction a as [|x a IH].
  - cbn. ring.
  - change (scal_r (x :: a) k) with (x * k :: scal_r a k).
    rewrite !np_sum_cons, IH. ring.
Qed.

Lemma np_sum_vsub_self a : np_sum (vsub a a) == 0.
Proof.
  induction a as [|x a IH].
  - reflexivity.
  - change (vsub (x :: a) (x :: a)) with (x - x :: vsub a a).
    rewrite np_sum_cons, IH. ring.
Qed.

(** Total gain after one more increment [c] on top of [a], against base [b]. *)
Lemma np_sum_gain a : forall b c,
  length b = length a -> length c = length a ->
  np_sum (vsub (vadd a c) b) == np_sum (vsub a b) + np_sum c.
Proof.
  induction a as [|x a IH]; intros [|y b] [|z c] Lb Lc; try discriminate.
  - cbn. ring.
  - change (vsub (vadd (x :: a) (z :: c)) (y :: b))
      with (x + z - y :: vsub (vadd a c) b).
    change (vsub (x :: a) (y :: b)) with (x - y :: vsub a b).
    rewrite !np_sum_cons, IH by (cbn in *; lia). ring.
Qed.



(** The gas added by a pass is the yield times the biomass added by it. *)
Lemma gas_increment_gain p prevC prevB :
  gas_increment p prevC prevB
  == biogas_yield p * np_sum (scal_r (next_growth p prevC prevB) dt).
Proof. unfold gas_increment. rewrite np_sum_scal_r. ring. Qed.

(** ** The loop body against the specification's formula *)

Lemma last_lookup_total (a : list Q) :
  (1 <= length a)%nat -> default 0 (last a) = a !!! (length a - 1)%nat.
Proof.
  intros L. rewrite last_lookup, Nat.sub_1_r.
  rewrite (list_lookup_lookup_total_lt a (Nat.pred (length a))) by lia.
  reflexivity.
Qed.

Lemma liner_leakage_spec p x :
  liner_leakage p * x
  == liner_perm p / liner_thickness p * dt * 86400 * x.
Proof. unfold liner_leakage, Qdiv. ring. Qed.

Lemma node_C_spec p prevC prevB i :
  length prevC = Z.to_nat (nx p) -> (2 <= length prevC)%nat ->
  node_C p prevC prevB i == Spec.concentration p prevC prevB i.
Proof.
  intros LN L2. unfold node_C, Spec.concentration.
  rewrite <- !gradient_derivative
    by (rewrite ?length_gradient; lia).
  apply Q.max_compat; [|reflexivity].
  unfold Spec.growth, Spec.rate, node_growth, monod,
    Spec.infiltration, Spec.liner_loss, rain_input.
  rewrite <- LN. rewrite last_lookup_total by lia.
  destruct (i =? length prevC - 1)%nat.
  - rewrite liner_leakage_spec. reflexivity.
  - reflexivity.
Qed.

(** ** Uniform fields *)

Lemma uniform_lookup_total c (a : list Q) i :
  uniform c a -> (i < length a)%nat -> a !!! i == c.
Proof.
  intros U L.
  exact (proj1 (Forall_lookup _ _) U _ _ (list_lookup_lookup_total_lt a i L)).
Qed.

Lemma uniform_full n c : uniform c (full n c).
Proof. apply Forall_replicate. reflexivity. Qed.

Lemma central_diff_uniform c f h i :
  uniform c f -> (2 <= length f)%nat -> (i < length f)%nat ->
  Spec.central_diff f h i == 0.
Proof.
  intros U L Li. unfold Spec.central_diff.
  destruct (Nat.eqb_spec i 0); [|destruct (Nat.eqb_spec i (length f - 1))];
    rewrite !(uniform_lookup_total c f) by (assumption || lia);
    unfold Qdiv; ring.
Qed.

Lemma gradient_uniform c f h :
  uniform c f -> (2 <= length f)%nat -> uniform 0 (gradient f h).
Proof.
  intros U L. apply Forall_lookup. intros i x E.
  assert (Li : (i < length f)%nat).
  { apply lookup_lt_Some in E. rewrite length_gradient in E; assumption. }
  rewrite lookup_gradient in E by assumption. injection E as <-.
  apply (central_diff_uniform c); assumption.
Qed.

Lemma np_sum_uniform_0 a : uniform 0 a -> np_sum a == 0.
Proof.
  induction 1 as [|x a Hx _ IH]; [reflexivity|].
  rewrite np_sum_cons, Hx, IH. ring.
Qed.

Lemma scal_r_uniform_0 a k : uniform 0 a -> uniform 0 (scal_r a k).
Proof.
  intros U. unfold scal_r. apply Forall_fmap.
  eapply Forall_impl; [exact U|]. intros x Hx. cbn. rewrite Hx. ring.
Qed.

Section Steady.

Variable p : Inputs.
Let N := Z.to_nat (nx p).
Hypothesis Hrain : rain_input p == 0.
Hypothesis Hleak : liner_leakage p == 0.
Hypothesis Hmu : mu_max p == 0.

Lemma node_growth_steady prevC prevB i : node_growth p prevC prevB i == 0.
Proof. unfold node_growth, monod, Qdiv. rewrite Hmu. ring. Qed.

Variables (prevC prevB : list Q) (c : Q).
Hypothesis HC : length prevC = N.
Hypothesis HB : length prevB = N.

Lemma next_growth_steady : uniform 0 (next_growth p prevC prevB).
Proof.
  apply Forall_lookup. intros i x E.
  assert (Li : (i < N)%nat).
  { apply lookup_lt_Some in E.
    rewrite (length_next_growth p prevC prevB HC HB) in E. exact E. }
  rewrite (lookup_next_growth p prevC prevB HC HB i Li) in E.
  injection E as <-. apply node_growth_steady.
Qed.

Lemma gas_increment_steady : gas_increment p prevC prevB == 0.
Proof.
  unfold gas_increment.
  apply np_sum_uniform_0, scal_r_uniform_0, scal_r_uniform_0, next_growth_steady.
Qed.

Lemma next_B_steady b : uniform b prevB -> uniform b (next_B p prevC prevB).
Proof.
  intros U. apply Forall_lookup. intros i x E.
  assert (Li : (i < N)%nat).
  { apply lookup_lt_Some in E.
    rewrite (length_next_B p prevC prevB HC HB) in E. exact E. }
  rewrite (lookup_next_B p prevC prevB HC HB i Li) in E. injection E as <-.
  rewrite node_growth_steady, (uniform_lookup_total b) by (assumption || lia).
  ring.
Qed.

Hypothesis HN : (2 <= N)%nat.
Hypothesis Hc : 0 <= c.

Lemma next_C_steady : uniform c prevC -> uniform c (next_C p prevC prevB).
Proof.
  intros U. apply Forall_lookup. intros i x E.
  assert (Li : (i < N)%nat).
  { apply lookup_lt_Some in E.
    rewrite (length_next_C p prevC prevB HC HB HN) in E. exact E. }
  rewrite (lookup_next_C p prevC prevB HC HB HN i Li) in E.
  injection E as <-. unfold node_C.
  pose proof (gradient_uniform c prevC dx U ltac:(lia)) as U1.
  pose proof (gradient_uniform 0 _ dx U1
                ltac:(rewrite length_gradient; lia)) as U2.
  assert (E1 : gradient prevC dx !!! i == 0)
    by (apply (uniform_lookup_total 0); [assumption|rewrite length_gradient; lia]).
  assert (E2 : gradient (gradient prevC dx) dx !!! i == 0)
    by (apply (uniform_lookup_total 0);
        [assumption|rewrite !length_gradient; rewrite ?length_gradient; lia]).
  assert (E3 : prevC !!! i == c) by (apply uniform_lookup_total; [assumption|lia]).
  transitivity (Qmax c 0); [|apply Q.max_l, Hc].
  apply Q.max_compat; [|reflexivity].
  rewrite E1, E2, E3, node_growth_steady.
  destruct (i =? 0)%nat, (i =? Z.to_nat (nx p) - 1)%nat;
    rewrite ?Hrain, ?Hleak; ring.
Qed.

End Steady.

(** Without rain, leakage and growth a uniform initial field stays as it is
    through every pass, whatever the velocity and the dispersion. *)
Lemma steady_history p s :
  rain_input p == 0 -> liner_leakage p == 0 -> mu_max p == 0 ->
  0 <= initial_conc p ->
  (Z.to_nat (t_steps p) = 1 \/ 2 <= Z.to_nat (nx p))%nat ->
  history p (Z.to_nat (t_steps p)) s ->
  forall n,
    (forall row, C s !! n = Some row -> uniform (initial_conc p) row) /\
    (forall row, B s !! n = Some row -> uniform (initial_biomass p) row) /\
    (forall g, gas s !! n = Some g -> g == 0).
Proof.
  intros Hrain Hleak Hmu Hc HN Hist. induction n as [|n (IC & IB & Ig)].
  - destruct Hist as (_ & C0 & B0 & G0 & _). split; [|split].
    + intros row E. rewrite C0 in E. injection E as <-. apply uniform_full.
    + intros row E. rewrite B0 in E. injection E as <-. apply uniform_full.
    + intros g E. rewrite G0 in E. injection E as <-. reflexivity.
  - assert (Step : forall (In : (exists row, C s !! S n = Some row \/ B s !! S n = Some row)
                         \/ (exists g, gas s !! S n = Some g)),
               exists pc pb g, C s !! n = Some pc /\ B s !! n = Some pb /\
                 gas s !! n = Some g /\
                 C s !! S n = Some (next_C p pc pb) /\
                 B s !! S n = Some (next_B p pc pb) /\
                 gas s !! S n = Some (g + gas_increment p pc pb) /\
                 (2 <= Z.to_nat (nx p))%nat).
    { intros In.
      assert (Lt : (S n < Z.to_nat (t_steps p))%nat).
      { destruct Hist as ((LC & LB & Lg & _) & _).
        destruct In as [[row [E|E]]|[g E]]; apply lookup_lt_Some in E; lia. }
      destruct (proj1 (history_rows p s Hist n) ltac:(lia))
        as ([pc Epc] & [pb Epb] & _).
      destruct (history_step p s Hist (S n) pc pb)
        as (E1 & E2 & g & E3 & E4);
        [lia|rewrite Nat.sub_1_r; assumption|rewrite Nat.sub_1_r; assumption
        |assumption|].
      rewrite Nat.sub_1_r in E3. cbn [Nat.pred] in E3.
      exists pc, pb, g. repeat (split; [assumption|]). lia. }
    split; [|split].
    + intros row E.
      destruct Step as (pc & pb & g & Epc & Epb & Eg & E1 & E2 & E3 & LN);
        [left; exists row; left; exact E|].
      rewrite E in E1. injection E1 as ->.
      apply next_C_steady; try assumption.
      * apply (history_length_C p s Hist n), Epc.
      * apply (history_length_B p s Hist n), Epb.
      * apply IC, Epc.
    + intros row E.
      destruct Step as (pc & pb & g & Epc & Epb & Eg & E1 & E2 & E3 & LN);
        [left; exists row; right; exact E|].
      rewrite E in E2. injection E2 as ->.
      apply next_B_steady; try assumption.
      * apply (history_length_C p s Hist n), Epc.
      * apply (history_length_B p s Hist n), Epb.
      * apply IB, Epb.
    + intros g' E.
      destruct Step as (pc & pb & g & Epc & Epb & Eg & E1 & E2 & E3 & LN);
        [right; exists g'; exact E|].
      rewrite E in E3. injection E3 as ->.
      rewrite (Ig g Eg), gas_increment_steady; try assumption.
      * ring.
      * apply (history_length_C p s Hist n), Epc.
      * apply (history_length_B p s Hist n), Epb.
Qed.

(** ** Dependence of a pass on the boundary parameters *)

Lemma node_C_with_rain p rate coeff prevC prevB i :
  i <> 0%nat ->
  node_C (with_rain p rate coeff) prevC prevB i = node_C p prevC prevB i.
Proof.
  intros Hi. unfold node_C. destruct (Nat.eqb_spec i 0) as [E|_]; [contradiction|].
  reflexivity.
Qed.

Lemma node_C_with_liner p thickness perm prevC prevB i :
  i <> (Z.to_nat (nx p) - 1)%nat ->
  node_C (with_liner p thickness perm) prevC prevB i = node_C p prevC prevB i.
Proof.
  intros Hi. unfold node_C.
  change (nx (with_liner p thickness perm)) with (nx p).
  destruct (Nat.eqb_spec i (Z.to_nat (nx p) - 1)) as [E|_]; [contradiction|].
  reflexivity.
Qed.

(** Two rows of [nx] nodes with the same entries away from node [k]. *)
Lemma next_C_agree p q prevC prevB k :
  nx q = nx p ->
  length prevC = Z.to_nat (nx p) -> length prevB = Z.to_nat (nx p) ->
  (2 <= Z.to_nat (nx p))%nat ->
  (forall i, i <> k -> node_C q prevC prevB i = node_C p prevC prevB i) ->
  length (next_C q prevC prevB) = length (next_C p prevC prevB) /\
  forall i, i <> k -> next_C q prevC prevB !! i = next_C p prevC prevB !! i.
Proof.
  intros Eq LC LB LN Hk.
  assert (L1 := length_next_C p prevC prevB LC LB LN).
  assert (L2 : length (next_C q prevC prevB) = Z.to_nat (nx q))
    by (apply length_next_C; rewrite Eq; assumption).
  split; [rewrite L1, L2, Eq; reflexivity|].
  intros i Hi. destruct (Nat.lt_ge_cases i (Z.to_nat (nx p))) as [Li|Li].
  - rewrite (lookup_next_C p prevC prevB LC LB LN i Li).
    rewrite lookup_next_C by (rewrite Eq; assumption).
    f_equal. apply Hk, Hi.
  - rewrite !(proj2 (lookup_ge_None _ _)); [reflexivity|lia|lia].
Qed.

(** ** Grid sizes *)

Lemma int_inject_Z z : int (inject_Z z / 1) = z.
Proof. unfold int. cbn. rewrite Z.mul_1_r. apply Z.quot_1_r. Qed.

Lemma nx_length p : nx p = length_ p.
Proof. apply int_inject_Z. Qed.

Lemma t_steps_time_days p : t_steps p = time_days p.
Proof. apply int_inject_Z. Qed.

Lemma for_loop_allocated body ns : forall s e,
  for_loop body ns s <> Raised e None.
Proof.
  induction ns as [|n ns IH]; intros s e; cbn.
  - discriminate.
  - destruct (body n s); [apply IH | discriminate].
Qed.

(** The three faults raised before line 48. *)
Lemma run_Raised_early p :
  (exists e, run p = Raised e None) <->
  ((nx p < 0)%Z \/ (t_steps p < 0)%Z \/ liner_thickness p == 0).
Proof.
  rewrite run_unfold. split.
  - intros [e E].
    destruct (Z.ltb_spec (nx p) 0); [left; assumption|].
    destruct (Z.ltb_spec (t_steps p) 0); [right; left; assumption|].
    destruct (Qeq_bool (liner_thickness p) 0) eqn:Q;
      [right; right; apply Qeq_bool_iff, Q|].
    destruct (Z.to_nat (t_steps p) =? 0)%nat; [discriminate|].
    exfalso. exact (for_loop_allocated _ _ _ _ E).
  - intros H.
    destruct (Z.ltb_spec (nx p) 0); [eexists; reflexivity|].
    destruct (Z.ltb_spec (t_steps p) 0); [eexists; reflexivity|].
    destruct (Qeq_bool (liner_thickness p) 0) eqn:Q; [eexists; reflexivity|].
    destruct H as [H|[H|H]]; [lia|lia|].
    apply Qeq_bool_iff in H. congruence.
Qed.

(** ** The binary64 pass *)

Section Binary64.

Local Open Scope float_scope.
Implicit Types (a b f : list float) (k h x y : float) (i n : nat).

Lemma F64_length_gradient f h :
  (2 <= length f)%nat -> length (F64.gradient f h) = length f.
Proof.
  intros L. unfold F64.gradient. cbn [length app].
  rewrite length_app, length_zip_with, length_drop, length_take. cbn. lia.
Qed.

Lemma F64_np_gradient_Ok f h :
  (2 <= length f)%nat -> F64.np_gradient f h = Ok (F64.gradient f h).
Proof.
  intros L. unfold F64.np_gradient.
  destruct (Nat.ltb_spec (length f) 2); [lia | reflexivity].
Qed.

Lemma F64_lookup_gradient f h i :
  (2 <= length f)%nat -> (i < length f)%nat ->
  F64.gradient f h !! i = Some (F64.central_diff f h i).
Proof.
  intros L Li. unfold F64.gradient, F64.central_diff.
  destruct (Nat.eqb_spec i 0) as [->|N0]; [reflexivity|].
  destruct i as [|i]; [congruence|]. cbn [app]. rewrite lookup_cons.
  change (S i) with (1 + i)%nat.
  destruct (Nat.eqb_spec (1 + i) (length f - 1)) as [E|N1].
  - rewrite lookup_app_r; rewrite length_zip_with, length_drop, length_take.
    + replace (i - _)%nat with 0%nat by lia. reflexivity.
    + lia.
  - rewrite lookup_app_l
      by (rewrite length_zip_with, length_drop, length_take; lia).
    rewrite lookup_zip_with, lookup_drop, lookup_take_lt by lia.
    rewrite (list_lookup_lookup_total_lt f (2 + i)) by lia.
    rewrite (list_lookup_lookup_total_lt f i) by lia. cbn.
    do 3 f_equal; f_equal; lia.
Qed.

Lemma F64_gradient_derivative f h :
  (2 <= length f)%nat -> F64.gradient f h = F64.derivative f h.
Proof.
  intros L. apply list_eq. intros i. unfold F64.derivative.
  rewrite list_lookup_fmap.
  destruct (Nat.lt_ge_cases i (length f)) as [Li|Li].
  - rewrite F64_lookup_gradient, lookup_seq_lt by assumption. reflexivity.
  - rewrite lookup_seq_ge by assumption.
    apply lookup_ge_None. rewrite F64_length_gradient by assumption. exact Li.
Qed.

Lemma F64_lookup_vadd a b i x y :
  a !! i = Some x -> b !! i = Some y -> F64.vadd a b !! i = Some (x + y).
Proof.
  intros Ha Hb. unfold F64.vadd. rewrite lookup_zip_with, Ha, Hb. reflexivity.
Qed.

Lemma F64_lookup_vsub a b i x y :
  a !! i = Some x -> b !! i = Some y -> F64.vsub a b !! i = Some (x - y).
Proof.
  intros Ha Hb. unfold F64.vsub. rewrite lookup_zip_with, Ha, Hb. reflexivity.
Qed.

Lemma F64_lookup_scal_l k a i x :
  a !! i = Some x -> F64.scal_l k a !! i = Some (k * x).
Proof.
  intros Ha. unfold F64.scal_l. rewrite list_lookup_fmap, Ha. reflexivity.
Qed.

Lemma F64_lookup_scal_r a k i x :
  a !! i = Some x -> F64.scal_r a k !! i = Some (x * k).
Proof.
  intros Ha. unfold F64.scal_r. rewrite list_lookup_fmap, Ha. reflexivity.
Qed.

Lemma F64_lookup_zeros_insert n j x i :
  (i < n)%nat -> (j < n)%nat ->
  <[j := x]> (F64.zeros n) !! i = Some (if (i =? j)%nat then x else 0).
Proof.
  intros Li Lj. unfold F64.zeros. destruct (Nat.eqb_spec i j) as [->|N].
  - apply list_lookup_insert_eq. rewrite length_replicate. exact Lj.
  - rewrite list_lookup_insert_ne by congruence. apply lookup_replicate_2, Li.
Qed.

Lemma F64_lookup_growth p prevC prevB i :
  (i < length prevC)%nat -> (i < length prevB)%nat ->
  zip_with (fun c v => F64.monod c v (F64.mu_max p) (F64.Ks p))
           (F64.div_r prevC (1 + F64.sorption_kd p)) prevB !! i
  = Some (F64.node_growth p prevC prevB i).
Proof.
  intros LC LB. unfold F64.div_r, F64.node_growth.
  rewrite lookup_zip_with, list_lookup_fmap.
  rewrite (list_lookup_lookup_total_lt prevC i LC).
  rewrite (list_lookup_lookup_total_lt prevB i LB). reflexivity.
Qed.

(** A pass over rows of [nx >= 2] nodes raises nothing, and these are the
    rows it returns, node by node. *)
Lemma F64_pass_nodes p prevC prevB :
  length prevC = F64.nx p -> length prevB = F64.nx p ->
  (2 <= F64.nx p)%nat ->
  exists rows,
    F64.pass p prevC prevB = Ok rows /\
    F64.newC rows = F64.maximum0 <$> F64.unclamped rows /\
    length (F64.unclamped rows) = F64.nx p /\
    length (F64.newB rows) = F64.nx p /\
    forall i, (i < F64.nx p)%nat ->
      F64.unclamped rows !! i
      = Some (F64.node_update (F64.liner_leakage p) p prevC prevB i) /\
      F64.newB rows !! i = Some (F64.node_biomass p prevC prevB i).
Proof.
  intros LC LB LN. unfold F64.pass.
  rewrite F64_np_gradient_Ok by lia. cbn [mbind result_bind].
  rewrite F64_np_gradient_Ok by (rewrite F64_length_gradient; lia).
  cbn [mbind result_bind].
  rewrite setitem_lt by (unfold F64.zeros; rewrite length_replicate; lia).
  cbn [mbind result_bind].
  assert (El : last prevC = Some (prevC !!! (length prevC - 1)%nat)).
  { rewrite last_lookup, Nat.sub_1_r.
    apply list_lookup_lookup_total_lt. lia. }
  unfold getitem_last. rewrite El. cbn [mbind result_bind].
  assert (Es : forall v, setitem_last v (F64.zeros (F64.nx p))
                 = Ok (<[(F64.nx p - 1)%nat := v]> (F64.zeros (F64.nx p)))).
  { intros v. unfold setitem_last, F64.zeros. rewrite length_replicate.
    destruct (F64.nx p); [lia | reflexivity]. }
  rewrite Es. cbn [mbind result_bind].
  eexists. split; [reflexivity|].
  cbn [F64.newC F64.unclamped F64.newB]. split; [reflexivity|].
  assert (Lg : length (zip_with
                 (fun c v => F64.monod c v (F64.mu_max p) (F64.Ks p))
                 (F64.div_r prevC (1 + F64.sorption_kd p)) prevB) = F64.nx p).
  { rewrite length_zip_with. unfold F64.div_r. rewrite length_fmap. lia. }
  split; [|split].
  - unfold F64.vsub, F64.vadd, F64.scal_r, F64.scal_l, F64.zeros.
    repeat first
      [ rewrite length_zip_with | rewrite length_fmap | rewrite length_insert
      | rewrite length_replicate | rewrite Lg
      | rewrite F64_length_gradient by (rewrite ?F64_length_gradient; lia) ].
    unfold F64.div_r. rewrite length_fmap. lia.
  - unfold F64.vadd, F64.scal_r. rewrite length_zip_with, length_fmap, Lg. lia.
  - intros i Li. split.
    + unfold F64.node_update.
      rewrite <- !F64_gradient_derivative
        by (rewrite ?F64_length_gradient; lia).
      apply F64_lookup_vsub; [apply F64_lookup_vadd; [apply F64_lookup_vsub;
        [apply F64_lookup_vadd; [apply F64_lookup_vsub|]|]|]|].
      * apply list_lookup_lookup_total_lt. lia.
      * apply F64_lookup_scal_r, F64_lookup_scal_l, list_lookup_lookup_total_lt.
        rewrite F64_length_gradient; lia.
      * apply F64_lookup_scal_r, F64_lookup_scal_l, list_lookup_lookup_total_lt.
        rewrite !F64_length_gradient; rewrite ?F64_length_gradient; lia.
      * apply F64_lookup_scal_r, F64_lookup_growth; lia.
      * apply F64_lookup_scal_r. unfold F64.node_infiltration.
        apply (F64_lookup_zeros_insert (F64.nx p) 0); lia.
      * unfold F64.node_liner_loss. rewrite LC.
        apply F64_lookup_zeros_insert; lia.
    + unfold F64.node_biomass. apply F64_lookup_vadd.
      * apply list_lookup_lookup_total_lt. lia.
      * apply F64_lookup_scal_r, F64_lookup_growth; lia.
Qed.





End Binary64.

(** * Main results *)

Lemma run_small : run small = Done small_result.
Proof. vm_compute. reflexivity. Qed.

(** C1, as stated, fails on binary64.  With liner thickness 0.1 and
    permeability 9e-7 (the other widgets at their defaults), from concentration
    100 and biomass 50 on two nodes, the pass stores 19.739999999999995 at the
    base node; the formula with [liner_loss = permeability / thickness * dt *
    86400 * C[n-1, last]] gives 19.740000000000009: line 33 multiplies by the
    reciprocal of the thickness instead of dividing by it. *)
Lemma stepper_formula_counterexample :
  exists rows,
    F64.pass F64.leaky [100; 100]%float [50; 50]%float = Ok rows /\
    F64.newC rows !! 1%nat = Some 0x1.3bd70a3d70a3cp+4%float /\
    F64.maximum0
      (F64.node_update (F64.quotient_leakage F64.leaky) F64.leaky
         [100; 100]%float [50; 50]%float 1)
    = 0x1.3bd70a3d70a4p+4%float /\
    (0x1.3bd70a3d70a3cp+4 =? 0x1.3bd70a3d70a4p+4)%float = false.
Proof.
  eexists. split; [vm_compute; reflexivity|].
  split; [vm_compute; reflexivity|]. split; vm_compute; reflexivity.
Qed.

(** C1, amended.  On binary64, with a liner thickness that is not zero (line
    33 raises [ZeroDivisionError] otherwise, before the loop), a pass over rows
    [n-1] of [nx >= 2] nodes raises nothing and stores at every node, bit for
    bit, the clamp [np.maximum(u, 0)] of the value [u] of
    [C[n-1,i] - velocity * dCdx[i] * dt + dispersion * d2Cdx2[i] * dt
     - growth[i] * dt + infiltration[i] * dt - liner_loss[i]],
    the operations taken from left to right, where [dCdx] and [d2Cdx2] are the
    central differences of [C[n-1,:]] and of [dCdx] (one-sided at the ends),
    [growth] is the Monod rate of [C[n-1,i] / (1 + Kd)] and [B[n-1,i]],
    [infiltration] is [rainfall_rate / 1000 * infiltration_coeff * 1000] at
    node 0 and 0 elsewhere, and [liner_loss] is
    [(permeability * (1 / thickness) * dt * 86400) * C[n-1,last]] at the last
    node and 0 elsewhere. *)
Theorem stepper_formula_binary64 p prevC prevB :
  length prevC = F64.nx p -> length prevB = F64.nx p ->
  (2 <= F64.nx p)%nat ->
  (F64.liner_thickness p =? 0)%float = false ->
  exists rows,
    F64.pass p prevC prevB = Ok rows /\
    length (F64.newC rows) = F64.nx p /\
    forall i, (i < F64.nx p)%nat ->
      F64.newC rows !! i
      = Some (F64.maximum0
                (F64.node_update (F64.liner_leakage p) p prevC prevB i)).
Proof.
  intros LC LB LN _.
  destruct (F64_pass_nodes p prevC prevB LC LB LN)
    as (rows & E & EC & LU & _ & P).
  exists rows. split; [exact E|]. split.
  - rewrite EC, length_fmap. exact LU.
  - intros i Li. rewrite EC, list_lookup_fmap, (proj1 (P i Li)). reflexivity.
Qed.

(** The pass of the counterexample: the base node holds the clamp of the
    update with the leakage coefficient of line 33. *)
Lemma stepper_formula_binary64_witness :
  exists rows,
    F64.pass F64.leaky [100; 100]%float [50; 50]%float = Ok rows /\
    F64.newC rows !! 1%nat
    = Some (F64.maximum0
              (F64.node_update (F64.liner_leakage F64.leaky) F64.leaky
                 [100; 100]%float [50; 50]%float 1)).
Proof.
  destruct (stepper_formula_binary64 F64.leaky [100; 100]%float [50; 50]%float
              eq_refl eq_refl (le_n 2) eq_refl) as (rows & E & _ & P).
  exists rows. split; [exact E|]. exact (P 1%nat (le_n 2)).
Defined.










(** C5.  The uniform scenario (ten nodes, five rows, velocity 0.05,
    dispersion 0.01, no rain, impermeable liner, [Kd = 0], [mu_max = 0],
    initial concentration 100 and biomass 50), for any infiltration
    coefficient and biogas yield and any positive liner thickness and [Ks]:
    the run completes with five rows of ten nodes, every concentration is
    100, every biomass is 50 and the cumulative gas is 0 throughout. *)
Theorem uniform_scenario coeff thickness ks yield :
  0 < thickness -> 0 < ks ->
  exists s,
    run (scenario coeff thickness ks yield) = Done s /\
    length (C s) = 5%nat /\ length (B s) = 5%nat /\ length (gas s) = 5%nat /\
    (forall n row, C s !! n = Some row ->
       length row = 10%nat /\ Forall (fun c => c == 100) row) /\
    (forall n row, B s !! n = Some row ->
       length row = 10%nat /\ Forall (fun b => b == 50) row) /\
    Forall (fun g => g == 0) (gas s).
Proof.
  intros Ht Hk. set (p := scenario coeff thickness ks yield).
  assert (En : Z.to_nat (nx p) = 10%nat) by reflexivity.
  assert (Et : Z.to_nat (t_steps p) = 5%nat) by reflexivity.
  destruct (run_total p) as (s & R & Hist).
  { vm_compute. discriminate. }
  { vm_compute. discriminate. }
  { cbn. lra. }
  { right. vm_compute. discriminate. }
  exists s. split; [exact R|].
  pose proof Hist as ((LC & LB & Lg & FC & FB) & _).
  rewrite Et in LC, LB, Lg. do 3 (split; [assumption|]).
  assert (St := steady_history p s).
  assert (Hrain : rain_input p == 0) by (unfold rain_input, Qdiv; cbn; ring).
  assert (Hleak : liner_leakage p == 0) by (unfold liner_leakage, Qdiv; cbn; ring).
  specialize (St Hrain Hleak ltac:(reflexivity) ltac:(cbn; lra)
                ltac:(right; rewrite En; lia) Hist).
  split; [|split].
  - intros n row E. split.
    + rewrite <- En. apply (history_length_C p s Hist n), E.
    + apply (proj1 (St n) row E).
  - intros n row E. split.
    + rewrite <- En. apply (history_length_B p s Hist n), E.
    + apply (proj1 (proj2 (St n)) row E).
  - apply Forall_lookup. intros n g E. apply (proj2 (proj2 (St n)) g E).
Qed.

(** The scenario with the widgets' default coefficient 0.5, thickness 1,
    [Ks = 50] and yield 0.5. *)
Lemma uniform_scenario_witness :
  exists s,
    run (scenario 0.5 1 50 0.5) = Done s /\
    length (C s) = 5%nat /\
    Forall (Forall (fun c => c == 100)) (C s) /\
    Forall (Forall (fun b => b == 50)) (B s) /\
    Forall (fun g => g == 0) (gas s).
Proof.
  destruct (uniform_scenario 0.5 1 50 0.5 ltac:(lra) ltac:(lra))
    as (s & R & LC & _ & _ & HC & HB & Hg).
  exists s. split; [exact R|]. split; [exact LC|].
  split; [|split; [|exact Hg]].
  - apply Forall_lookup. intros n row E. apply (HC n row E).
  - apply Forall_lookup. intros n row E. apply (HB n row E).
Defined.

(** C6, as stated, fails on binary64.  With [mu_max = 0.1], [Ks = 50] and
    [B = 50], the rate at the concentration [c_low] is larger than at the next
    binary64 number [c_high], and at [c_large] the rate exceeds
    [mu_max * B]. *)
Lemma monod_kinetics_counterexample :
  (F64.c_low <? F64.c_high)%float = true /\
  (F64.monod F64.c_high 50 (F64.mu_max F64.leaky) 50
   <? F64.monod F64.c_low 50 (F64.mu_max F64.leaky) 50)%float = true /\
  (F64.mu_max F64.leaky * 50
   <? F64.monod F64.c_large 50 (F64.mu_max F64.leaky) 50)%float = true.
Proof. repeat split. Qed.

(** C6, amended.  In exact rational arithmetic (no rounding, no overflow),
    the Monod rate vanishes at zero concentration for every biomass when
    [Ks <> 0]; for [Ks > 0], [mu_max >= 0] and [B >= 0] it is non-decreasing
    in the concentration on [C >= 0] (increasing when [mu_max] and [B] are
    positive), never exceeds [mu_max * B], and comes within any [eps > 0] of
    that ceiling for all large enough concentrations. *)
Theorem monod_kinetics :
  (forall b mu ks, ~ ks == 0 -> monod 0 b mu ks == 0) /\
  (forall b mu ks, 0 < ks -> 0 <= mu -> 0 <= b ->
     (forall c1 c2, 0 <= c1 -> c1 <= c2 ->
        monod c1 b mu ks <= monod c2 b mu ks) /\
     (forall c1 c2, 0 < mu -> 0 < b -> 0 <= c1 -> c1 < c2 ->
        monod c1 b mu ks < monod c2 b mu ks) /\
     (forall c, 0 <= c -> monod c b mu ks <= mu * b) /\
     (forall eps, 0 < eps ->
        exists c0, 0 <= c0 /\
          forall c, c0 <= c -> mu * b - eps <= monod c b mu ks)).
Proof.
  split.
  - intros b mu ks Hk. unfold monod. field. lra.
  - intros b mu ks Hk Hm Hb. split; [|split; [|split]].
    + intros c1 c2 H1 H12. apply monod_le; assumption.
    + intros c1 c2 Hm' Hb' H1 H12. apply monod_lt; assumption.
    + intros c Hc. apply monod_bound; assumption.
    + intros eps He. apply monod_saturates; assumption.
Qed.

(** At [mu_max = 0.1], [Ks = 50], [B = 50]: the rate rises from 0 at [C = 0]
    through 2.5 at [C = 50] and stays below the ceiling 5. *)
Lemma monod_kinetics_witness :
  monod 0 50 0.1 50 == 0 /\
  monod 50 50 0.1 50 <= monod 100 50 0.1 50 /\
  monod 100 50 0.1 50 <= 0.1 * 50.
Proof.
  destruct monod_kinetics as [Z M].
  destruct (M 50 0.1 50 ltac:(lra) ltac:(lra) ltac:(lra)) as (Le & _ & Bd & _).
  split; [apply Z; lra|].
  split; [apply Le; lra | apply Bd; lra].
Defined.

(** C7, as stated, fails: with permeability 0 (outside the documented
    domain) the run raises nothing and returns the complete arrays. *)
Lemma configuration_error_counterexample :
  liner_perm impermeable <= 0 /\
  ~ in_documented_domain impermeable /\
  exists s, run impermeable = Done s /\ shaped 100 30 s.
Proof.
  split; [cbn; lra|]. split.
  - intros (_ & _ & _ & _ & _ & H & _). cbn in H. lra.
  - destruct (run_total impermeable) as (s & R & Hist).
    + vm_compute. discriminate.
    + vm_compute. discriminate.
    + cbn. lra.
    + right. vm_compute. discriminate.
    + exists s. split; [exact R|]. exact (proj1 Hist).
Qed.

(** C7, amended.  The script validates no parameter.  It raises before any
    state array exists exactly when the node count or the step count is
    negative ([ValueError] of [np.linspace]) or the liner thickness is zero
    ([ZeroDivisionError]).  Otherwise, whatever the other parameters are, it
    completes with [t_steps] rows of [nx] nodes when it has a row and, unless
    that is its only row, two nodes or more; so it does for every parameter
    set in the ranges of the widgets.  In the two remaining cases it raises
    with arrays allocated: [IndexError] at line 50 when there is no row,
    [ValueError] of [np.gradient] in the first pass when there are several
    rows of fewer than two nodes. *)
Theorem configuration_faults p :
  ((length_ p < 0)%Z -> run p = Raised ValueError None) /\
  ((0 <= length_ p)%Z -> (time_days p < 0)%Z ->
   run p = Raised ValueError None) /\
  ((0 <= length_ p)%Z -> (0 <= time_days p)%Z -> liner_thickness p == 0 ->
   run p = Raised ZeroDivisionError None) /\
  (forall e, run p = Raised e None ->
     (length_ p < 0)%Z \/ (time_days p < 0)%Z \/ liner_thickness p == 0) /\
  ((0 <= length_ p)%Z -> (1 <= time_days p)%Z -> ~ liner_thickness p == 0 ->
   (time_days p = 1 \/ 2 <= length_ p)%Z ->
   exists s, run p = Done s /\
             shaped (Z.to_nat (time_days p)) (Z.to_nat (length_ p)) s) /\
  (in_widget_range p -> exists s, run p = Done s) /\
  ((0 <= length_ p)%Z -> time_days p = 0%Z -> ~ liner_thickness p == 0 ->
   run p = Raised IndexError (Some {| C := []; B := []; gas := [] |})) /\
  ((0 <= length_ p < 2)%Z -> (2 <= time_days p)%Z ->
   ~ liner_thickness p == 0 ->
   run p = Raised ValueError (Some (initial_state p))).
Proof.
  rewrite <- (nx_length p), <- (t_steps_time_days p).
  split; [|split; [|split; [|split]]].
  - intros Hn. rewrite run_unfold.
    destruct (Z.ltb_spec (nx p) 0); [reflexivity | lia].
  - intros Hn Ht. rewrite run_unfold.
    destruct (Z.ltb_spec (nx p) 0); [lia|].
    destruct (Z.ltb_spec (t_steps p) 0); [reflexivity | lia].
  - intros Hn Ht Hl. rewrite run_unfold.
    destruct (Z.ltb_spec (nx p) 0); [lia|].
    destruct (Z.ltb_spec (t_steps p) 0); [lia|].
    apply Qeq_bool_iff in Hl. rewrite Hl. reflexivity.
  - intros e E. apply (proj1 (run_Raised_early p)). exists e. exact E.
  - assert (Tot : (0 <= nx p)%Z -> (1 <= t_steps p)%Z ->
                  ~ liner_thickness p == 0 -> (t_steps p = 1 \/ 2 <= nx p)%Z ->
                  exists s, run p = Done s /\
                    shaped (Z.to_nat (t_steps p)) (Z.to_nat (nx p)) s).
    { intros Hn Ht Hl Hs.
      destruct (run_total p Hn Ht Hl Hs) as (s & R & Hist).
      exists s. split; [exact R | exact (proj1 Hist)]. }
    split; [exact Tot|]. split; [|split].
    + intros (Hl & Ht & _ & _ & _ & _ & Hth & _).
      rewrite <- (nx_length p) in Hl. rewrite <- (t_steps_time_days p) in Ht.
      destruct (Tot ltac:(lia) ltac:(lia) ltac:(lra) ltac:(lia)) as (s & R & _).
      exists s. exact R.
    + apply run_no_rows.
    + apply run_short.
Qed.

(** The defaults are in the widget ranges and run to completion; a zero
    liner thickness raises [ZeroDivisionError] before allocation. *)
Lemma configuration_faults_witness :
  in_widget_range defaults /\ (exists s, run defaults = Done s) /\
  run (with_liner defaults 0 0) = Raised ZeroDivisionError None.
Proof.
  assert (W : in_widget_range defaults).
  { unfold in_widget_range. cbn. repeat split; (lia || lra). }
  split; [exact W|]. split.
  - destruct (configuration_faults defaults) as (_ & _ & _ & _ & _ & T & _).
    exact (T W).
  - destruct (configuration_faults (with_liner defaults 0 0))
      as (_ & _ & Z & _).
    apply Z; [cbn; lia | cbn; lia | reflexivity].
Defined.

(** C8, as stated, fails.  On binary64 numbers, the first pass from
    concentration 100 and biomass [2^1023] with [mu_max = 10] computes the
    growth [+inf], so the concentration before the clamp is [-inf] at both
    nodes: the pass raises nothing, stores concentration 0 and biomass
    [+inf].  The next pass, from those rows, computes NaN and stores NaN in
    both fields, again raising nothing. *)
Lemma nonfinite_counterexample :
  exists r1 r2,
    F64.pass F64.hot [100; 100]%float [F64.huge; F64.huge] = Ok r1 /\
    F64.unclamped r1 = [neg_infinity; neg_infinity] /\
    F64.newC r1 = [0; 0]%float /\
    F64.newB r1 = [infinity; infinity] /\
    F64.pass F64.hot [0; 0]%float [infinity; infinity] = Ok r2 /\
    F64.unclamped r2 = [nan; nan] /\
    F64.newC r2 = [nan; nan] /\
    F64.newB r2 = [nan; nan].
Proof.
  eexists _, _. split; [vm_compute; reflexivity|]. do 3 (split; [reflexivity|]).
  split; [vm_compute; reflexivity|]. repeat split.
Qed.

(** C8, amended.  The pass has no check for non-finite values and reports
    nothing: with a liner thickness that is not zero, over rows of [nx >= 2]
    nodes, it always returns; at every node it stores the clamp
    [np.maximum(u, 0)] of the updated concentration [u], which is [u] itself
    when [u] is NaN or [+inf] and 0 when [u] is [-inf]; and it stores the
    biomass [B[n-1,i] + growth[i] * dt] as computed, finite or not. *)
Theorem nonfinite_unreported :
  (forall p prevC prevB,
     length prevC = F64.nx p -> length prevB = F64.nx p ->
     (2 <= F64.nx p)%nat ->
     (F64.liner_thickness p =? 0)%float = false ->
     exists rows,
       F64.pass p prevC prevB = Ok rows /\
       forall i, (i < F64.nx p)%nat ->
         F64.newC rows !! i
         = Some (F64.maximum0
                   (F64.node_update (F64.liner_leakage p) p prevC prevB i)) /\
         F64.newB rows !! i = Some (F64.node_biomass p prevC prevB i)) /\
  (forall x, is_nan x = true -> F64.maximum0 x = x) /\
  F64.maximum0 infinity = infinity /\
  F64.maximum0 neg_infinity = 0%float.
Proof.
  split; [|split; [|split; reflexivity]].
  - intros p prevC prevB LC LB LN _.
    destruct (F64_pass_nodes p prevC prevB LC LB LN)
      as (rows & E & EC & _ & _ & P).
    exists rows. split; [exact E|]. intros i Li.
    destruct (P i Li) as [PU PB]. split; [|exact PB].
    rewrite EC, list_lookup_fmap, PU. reflexivity.
  - intros x Hx. unfold F64.maximum0. rewrite Hx, orb_true_r. reflexivity.
Qed.

(** The first pass of the counterexample returns; its node 0 holds the clamp
    of the update and the biomass as computed. *)
Lemma nonfinite_unreported_witness :
  exists rows,
    F64.pass F64.hot [100; 100]%float [F64.huge; F64.huge] = Ok rows /\
    F64.newC rows !! 0%nat
    = Some (F64.maximum0
              (F64.node_update (F64.liner_leakage F64.hot) F64.hot
                 [100; 100]%float [F64.huge; F64.huge] 0)) /\
    F64.newB rows !! 0%nat
    = Some (F64.node_biomass F64.hot [100; 100]%float
              [F64.huge; F64.huge] 0).
Proof.
  destruct (proj1 nonfinite_unreported F64.hot [100; 100]%float
              [F64.huge; F64.huge] eq_refl eq_refl (le_n 2) eq_refl)
    as (rows & E & P).
  exists rows. split; [exact E|]. exact (P 0%nat (le_S 1 1 (le_n 1))).
Defined.

(** C9.  At every time step of a completed run the cumulative gas is the
    biogas yield times the biomass gained since row 0, summed over the
    nodes. *)
Theorem gas_tracks_biomass p s :
  run p = Done s ->
  forall n g rowN row0,
    gas s !! n = Some g -> B s !! n = Some rowN -> B s !! 0%nat = Some row0 ->
    g == biogas_yield p * np_sum (vsub rowN row0).
Proof.
  intros R n. destruct (run_Done_history p s R) as (_ & _ & Hist).
  induction n as [|n IH]; intros g rowN row0 Eg EN E0.
  - rewrite E0 in EN. injection EN as <-.
    destruct Hist as (_ & _ & _ & G0 & _). rewrite G0 in Eg. injection Eg as <-.
    rewrite np_sum_vsub_self. ring.
  - assert (Lt : (n < Z.to_nat (t_steps p))%nat).
    { destruct Hist as ((_ & _ & Lg & _) & _).
      apply lookup_lt_Some in Eg. lia. }
    destruct (proj1 (history_rows p s Hist n) Lt)
      as ([pc Epc] & [pb Epb] & [g' Eg']).
    destruct (history_step p s Hist (S n) pc pb) as (_ & EB & g2 & Eg2 & Eg3);
      [lia|rewrite Nat.sub_1_r; assumption|rewrite Nat.sub_1_r; assumption
      |right; exists g; exact Eg|].
    rewrite Nat.sub_1_r in Eg2. cbn [Nat.pred] in Eg2.
    rewrite Eg' in Eg2. injection Eg2 as <-.
    rewrite Eg in Eg3. injection Eg3 as ->.
    rewrite EN in EB. injection EB as ->.
    pose proof (history_length_C p s Hist _ _ Epc) as LC.
    pose proof (history_length_B p s Hist _ _ Epb) as LB.
    pose proof (history_length_B p s Hist _ _ E0) as L0.
    rewrite (IH g' pb row0 Eg' Epb E0).
    unfold next_B.
    rewrite np_sum_gain
      by (rewrite ?length_scal_r, ?(length_next_growth p pc pb LC LB); lia).
    rewrite gas_increment_gain. ring.
Qed.

(** In the small run, [gas[1] = 2.5 = 0.5 * ((52.5 - 50) + (52.5 - 50))]. *)
Lemma gas_tracks_biomass_witness :
  run small = Done small_result /\
  (4000000000 # 1600000000)
  == biogas_yield small
     * np_sum (vsub [210000 # 4000; 210000 # 4000] [50; 50]).
Proof.
  split; [exact run_small|].
  exact (gas_tracks_biomass small small_result run_small 1%nat _ _ _
           eq_refl eq_refl eq_refl).
Defined.

(** C10.  One pass of the loop, from a state whose rows have [nx] nodes, run
    under two parameter sets (of non-zero liner thickness, without which
    line 33 raises and no pass is run).  If they differ only in the rainfall
    rate or the infiltration coefficient, the stored concentration rows agree
    at every node but node 0; if they differ only in the liner thickness or
    permeability, at every node but the last.  In both cases the rest of the
    concentration field, the biomass field (so the new biomass row) and the
    gas series (so the gas increment) are the same. *)
Theorem boundary_locality p n s s1 rows :
  ~ liner_thickness p == 0 ->
  shaped rows (Z.to_nat (nx p)) s ->
  loop_body p n s = Ok s1 ->
  (forall rate coeff,
     exists s2 row1 row2,
       loop_body (with_rain p rate coeff) n s = Ok s2 /\
       B s2 = B s1 /\ gas s2 = gas s1 /\
       (forall m, m <> n -> C s2 !! m = C s1 !! m) /\
       C s1 !! n = Some row1 /\ C s2 !! n = Some row2 /\
       length row2 = length row1 /\
       forall i, i <> 0%nat -> row2 !! i = row1 !! i) /\
  (forall thickness perm,
     ~ thickness == 0 ->
     exists s2 row1 row2,
       loop_body (with_liner p thickness perm) n s = Ok s2 /\
       B s2 = B s1 /\ gas s2 = gas s1 /\
       (forall m, m <> n -> C s2 !! m = C s1 !! m) /\
       C s1 !! n = Some row1 /\ C s2 !! n = Some row2 /\
       length row2 = length row1 /\
       forall i, i <> (length row1 - 1)%nat -> row2 !! i = row1 !! i).
Proof.
  intros _ Sh E.
  apply loop_body_inv in E
    as (pc & pb & g & Epc & Epb & Eg & L2 & _ & Ln & LnB & Lng & ->).
  destruct Sh as (_ & _ & _ & FC & FB).
  assert (LC : length pc = Z.to_nat (nx p))
    by exact (proj1 (Forall_lookup _ _) FC _ _ Epc).
  assert (LB : length pb = Z.to_nat (nx p))
    by exact (proj1 (Forall_lookup _ _) FB _ _ Epb).
  assert (LN : (2 <= Z.to_nat (nx p))%nat) by lia.
  split.
  - intros rate coeff. set (q := with_rain p rate coeff).
    destruct (next_C_agree p q pc pb 0 eq_refl LC LB LN) as [Ll Lr].
    { intros i Hi. apply node_C_with_rain, Hi. }
    exists {| C := <[n := next_C q pc pb]> (C s);
              B := <[n := next_B q pc pb]> (B s);
              gas := <[n := g + gas_increment q pc pb]> (gas s) |},
      (next_C p pc pb), (next_C q pc pb).
    split; [apply loop_body_Ok; assumption|]. cbn [C B gas].
    split; [reflexivity|]. split; [reflexivity|].
    split; [intros m Hm; rewrite !list_lookup_insert_ne by congruence; reflexivity|].
    split; [apply list_lookup_insert_eq, Ln|].
    split; [apply list_lookup_insert_eq, Ln|].
    split; assumption.
  - intros thickness perm _. set (q := with_liner p thickness perm).
    destruct (next_C_agree p q pc pb (Z.to_nat (nx p) - 1) eq_refl LC LB LN)
      as [Ll Lr].
    { intros i Hi. apply node_C_with_liner, Hi. }
    exists {| C := <[n := next_C q pc pb]> (C s);
              B := <[n := next_B q pc pb]> (B s);
              gas := <[n := g + gas_increment q pc pb]> (gas s) |},
      (next_C p pc pb), (next_C q pc pb).
    split; [apply loop_body_Ok; assumption|]. cbn [C B gas].
    split; [reflexivity|]. split; [reflexivity|].
    split; [intros m Hm; rewrite !list_lookup_insert_ne by congruence; reflexivity|].
    split; [apply list_lookup_insert_eq, Ln|].
    split; [apply list_lookup_insert_eq, Ln|].
    split; [assumption|].
    rewrite (length_next_C p pc pb LC LB LN). assumption.
Qed.

(** One pass from the initial state of the small run, with and without rain:
    node 1 of the stored row is [97.49136] in both, and the biomass is the
    same. *)
Lemma boundary_locality_witness :
  ~ liner_thickness small == 0 /\
  shaped 2 2 (initial_state small) /\
  loop_body small 1 (initial_state small) = Ok small_result /\
  exists s2 row2,
    loop_body (with_rain small 0 0) 1 (initial_state small) = Ok s2 /\
    C s2 !! 1%nat = Some row2 /\
    row2 !! 1%nat = Some (3899654400000000000 # 40000000000000000) /\
    B s2 = B small_result.
Proof.
  assert (Sh : shaped 2 (Z.to_nat (nx small)) (initial_state small)).
  { apply (history_initial small). vm_compute. lia. }
  assert (E : loop_body small 1 (initial_state small) = Ok small_result)
    by (vm_compute; reflexivity).
  assert (Th : ~ liner_thickness small == 0) by (cbn; lra).
  split; [exact Th|]. split; [exact Sh|]. split; [exact E|].
  destruct (proj1 (boundary_locality small 1 (initial_state small)
                     small_result 2 Th Sh E) 0 0)
    as (s2 & row1 & row2 & E2 & EB & _ & _ & E1 & Er & _ & Ag).
  exists s2, row2. split; [exact E2|]. split; [exact Er|]. split; [|exact EB].
  rewrite (Ag 1%nat ltac:(lia)). injection E1 as <-. reflexivity.
Defined.


(** * Further properties of the script *)

(** ** Shape and initial rows (lines 12-14, 48-52) *)

(** X1.  A completed run has [time_days] rows (at least one) of [length]
    nodes in both fields and [time_days] gas entries, and its rows 0 still
    hold the initial concentration and the initial biomass at every node:
    no pass writes to row 0 or changes a shape. *)
Theorem run_shape p s :
  run p = Done s ->
  (1 <= time_days p)%Z /\
  length (C s) = Z.to_nat (time_days p) /\
  length (B s) = Z.to_nat (time_days p) /\
  length (gas s) = Z.to_nat (time_days p) /\
  (forall n row, C s !! n = Some row -> length row = Z.to_nat (length_ p)) /\
  (forall n row, B s !! n = Some row -> length row = Z.to_nat (length_ p)) /\
  C s !! 0%nat = Some (replicate (Z.to_nat (length_ p)) (initial_conc p)) /\
  B s !! 0%nat = Some (replicate (Z.to_nat (length_ p)) (initial_biomass p)).
Proof.
  intros R. destruct (run_Done_history p s R) as (LT & _ & Hist).
  rewrite <- (nx_length p), <- (t_steps_time_days p).
  pose proof Hist as ((LC & LB & Lg & _) & C0 & B0 & _).
  split; [lia|]. do 3 (split; [assumption|]).
  split; [exact (history_length_C p s Hist)|].
  split; [exact (history_length_B p s Hist)|].
  split; assumption.
Qed.

(** The small run has two rows of two nodes, starting from 100 and 50. *)
Lemma run_shape_witness :
  run small = Done small_result /\
  length (C small_result) = 2%nat /\
  C small_result !! 0%nat = Some [100; 100] /\
  B small_result !! 0%nat = Some [50; 50].
Proof.
  split; [exact run_small|].
  destruct (run_shape small small_result run_small)
    as (_ & LC & _ & _ & _ & _ & C0 & B0).
  split; [exact LC|]. split; [exact C0 | exact B0].
Defined.

(** ** Biomass and gas updates (lines 72-74, 81-82) *)

Lemma np_sum_vsub_vadd a c :
  length c = length a -> np_sum (vsub (vadd a c) a) == np_sum c.
Proof.
  intros L. rewrite np_sum_gain by (reflexivity || assumption).
  rewrite np_sum_vsub_self. ring.
Qed.

(** X2.  In exact rational arithmetic, with [Ks > 0], [Kd >= 0] and a
    non-negative initial concentration: in a completed run, for
    [1 <= n < t_steps], every node of the biomass row [n] is the node of row
    [n-1] plus [dt] times the Monod rate of the mobile concentration
    [C[n-1,i] / (1 + Kd)] and that biomass, and the gas grows by the yield
    times the biomass gained in the pass, summed over the nodes. *)
Theorem biomass_gas_update p s :
  0 < Ks p -> 0 <= sorption_kd p -> 0 <= initial_conc p ->
  run p = Done s ->
  forall n, (1 <= n)%nat -> (Z.of_nat n < t_steps p)%Z ->
  exists prevC prevB rowB g0 g1,
    C s !! (n - 1)%nat = Some prevC /\
    B s !! (n - 1)%nat = Some prevB /\
    B s !! n = Some rowB /\
    gas s !! (n - 1)%nat = Some g0 /\
    gas s !! n = Some g1 /\
    (forall i, (i < Z.to_nat (nx p))%nat ->
       rowB !! i
       = Some (prevB !!! i
               + monod (prevC !!! i / (1 + sorption_kd p)) (prevB !!! i)
                       (mu_max p) (Ks p) * dt)) /\
    g1 == g0 + biogas_yield p * np_sum (vsub rowB prevB).
Proof.
  intros _ _ _ R n L1 Lt.
  destruct (run_Done_history p s R) as (_ & _ & Hist).
  destruct (proj1 (history_rows p s Hist (n - 1)) ltac:(lia))
    as ([pc Epc] & [pb Epb] & _).
  destruct (proj1 (history_rows p s Hist n) ltac:(lia)) as (_ & [rb Erb] & _).
  destruct (history_step p s Hist n pc pb) as (_ & EB & g & Eg & Eg');
    [lia|assumption|assumption|left; exists rb; right; exact Erb|].
  pose proof (history_length_C p s Hist _ _ Epc) as LC.
  pose proof (history_length_B p s Hist _ _ Epb) as LB.
  exists pc, pb, (next_B p pc pb), g, (g + gas_increment p pc pb).
  do 5 (split; [assumption|]). split.
  - intros i Li. apply (lookup_next_B p pc pb LC LB i Li).
  - rewrite gas_increment_gain. unfold next_B.
    rewrite np_sum_vsub_vadd; [reflexivity|].
    rewrite length_scal_r. rewrite (length_next_growth p pc pb LC LB). lia.
Qed.

(** In the small run: [52.5 = 50 + monod(100/2, 50) * 1] at node 0 and
    [2.5 = 0 + 0.5 * ((52.5 - 50) + (52.5 - 50))]. *)
Lemma biomass_gas_update_witness :
  run small = Done small_result /\
  exists rowB g1,
    B small_result !! 1%nat = Some rowB /\
    gas small_result !! 1%nat = Some g1 /\
    rowB !! 0%nat = Some (50 + monod (100 / (1 + 1)) 50 0.1 50 * dt) /\
    g1 == 0 + 0.5 * np_sum (vsub rowB [50; 50]).
Proof.
  split; [exact run_small|].
  destruct (biomass_gas_update small small_result ltac:(cbn; lra)
              ltac:(cbn; lra) ltac:(cbn; lra) run_small 1%nat
              ltac:(lia) ltac:(reflexivity))
    as (pc & pb & rowB & g0 & g1 & EC & EB & Er & E0 & E1 & P & G).
  injection EC as <-. injection EB as <-. injection E0 as <-.
  exists rowB, g1. split; [exact Er|]. split; [exact E1|].
  split; [exact (P 0%nat ltac:(vm_compute; lia)) | exact G].
Defined.

(** ** Monod rate and sorption (lines 55-56, 72-74) *)

(** X3.  In exact rational arithmetic: at a concentration equal to
    [Ks <> 0] the Monod rate is half its ceiling [mu_max * B], and the rate is
    proportional to the biomass wherever [Ks + C <> 0]. *)
Theorem monod_half_saturation b mu ks :
  ~ ks == 0 ->
  monod ks b mu ks == mu * b / 2 /\
  forall c k, ~ ks + c == 0 -> monod c (k * b) mu ks == k * monod c b mu ks.
Proof.
  intros Hk. split.
  - unfold monod. field. lra.
  - intros c k Hc. unfold monod. field. exact Hc.
Qed.

(** With the default [Ks = 50], [mu_max = 0.1] and biomass 50: rate 2.5 at
    concentration 50, and 5 for twice the biomass. *)
Lemma monod_half_saturation_witness :
  monod 50 50 0.1 50 == 0.1 * 50 / 2 /\
  monod 50 (2 * 50) 0.1 50 == 2 * monod 50 50 0.1 50.
Proof.
  destruct (monod_half_saturation 50 0.1 50 ltac:(lra)) as [H L].
  split; [exact H | apply L; lra].
Defined.

Lemma mobile_fraction_le c kd1 kd2 :
  0 <= c -> 0 <= kd1 -> kd1 <= kd2 ->
  0 <= c / (1 + kd2) /\ c / (1 + kd2) <= c / (1 + kd1).
Proof.
  intros Hc H1 H12. split.
  - apply Qle_shift_div_l; lra.
  - apply Qle_shift_div_l; [lra|].
    assert (E : c / (1 + kd2) * (1 + kd1) == c * (1 + kd1) / (1 + kd2))
      by (field; lra).
    rewrite E. apply Qle_shift_div_r; [lra|].
    assert (0 <= c * (kd2 - kd1)) by (apply Qmult_le_0_compat; lra). lra.
Qed.

(** X4.  Sorption slows degradation, in exact rational arithmetic: for
    [mu_max >= 0], [Ks > 0] and non-negative concentration and biomass, the
    growth computed from the mobile fraction [C / (1 + Kd)] does not increase
    with [Kd >= 0], and never exceeds the growth without sorption. *)
Theorem sorption_reduces_growth c b mu ks kd1 kd2 :
  0 <= mu -> 0 < ks -> 0 <= c -> 0 <= b -> 0 <= kd1 -> kd1 <= kd2 ->
  monod (c / (1 + kd2)) b mu ks <= monod (c / (1 + kd1)) b mu ks /\
  monod (c / (1 + kd1)) b mu ks <= monod c b mu ks.
Proof.
  intros Hm Hk Hc Hb H1 H12.
  destruct (mobile_fraction_le c kd1 kd2 Hc H1 H12) as [P0 P1].
  destruct (mobile_fraction_le c 0 kd1 Hc ltac:(lra) H1) as [Q0 Q1].
  split.
  - apply monod_le; assumption.
  - assert (E : c / (1 + 0) == c) by (field; lra).
    assert (M := monod_le (c / (1 + kd1)) (c / (1 + 0)) b mu ks Hm Hk Hb Q0 Q1).
    unfold monod in M. unfold monod. rewrite E in M. exact M.
Qed.

(** Concentration 100, biomass 50, [Kd] 1 against 0: growth 2.5 against
    about 3.33. *)
Lemma sorption_reduces_growth_witness :
  monod (100 / (1 + 1)) 50 0.1 50 <= monod (100 / (1 + 0)) 50 0.1 50.
Proof.
  apply (sorption_reduces_growth 100 50 0.1 50 0 1); lra.
Defined.

(** ** The two [np.gradient] calls (lines 60-61) *)

Lemma gradient_total f h i :
  (2 <= length f)%nat -> (i < length f)%nat ->
  gradient f h !!! i = Spec.central_diff f h i.
Proof.
  intros L Li. apply list_lookup_total_correct, lookup_gradient; assumption.
Qed.

(** The three shapes of [Spec.central_diff]. *)
Lemma central_diff_first f h :
  Spec.central_diff f h 0 = (f !!! 1%nat - f !!! 0%nat) / h.
Proof. reflexivity. Qed.

Lemma central_diff_last f h i :
  i <> 0%nat -> i = (length f - 1)%nat ->
  Spec.central_diff f h i
  = (f !!! (length f - 1)%nat - f !!! (length f - 2)%nat) / h.
Proof.
  intros H0 H1. unfold Spec.central_diff.
  destruct (Nat.eqb_spec i 0); [contradiction|].
  destruct (Nat.eqb_spec i (length f - 1)); [reflexivity|contradiction].
Qed.

Lemma central_diff_inner f h i :
  i <> 0%nat -> i <> (length f - 1)%nat ->
  Spec.central_diff f h i = (f !!! (i + 1)%nat - f !!! (i - 1)%nat) / (2 * h).
Proof.
  intros H0 H1. unfold Spec.central_diff.
  destruct (Nat.eqb_spec i 0); [contradiction|].
  destruct (Nat.eqb_spec i (length f - 1)); [contradiction|reflexivity].
Qed.

(** X5.  In exact rational arithmetic, the second derivative the script
    uses, the gradient of the gradient with spacing [h <> 0], is a wide
    stencil: at a node [i] at least two nodes away from both ends it is
    [(f[i+2] - 2 f[i] + f[i-2]) / (4 h^2)]; at node 0 of a row of three nodes
    or more it is [(f[2] - 2 f[1] + f[0]) / (2 h^2)], and likewise at the last
    node; on a row of two nodes it is 0 at both. *)
Theorem second_derivative_stencil f h :
  ~ h == 0 ->
  (forall i, (2 <= i)%nat -> (i + 2 < length f)%nat ->
     gradient (gradient f h) h !!! i
     == (f !!! (i + 2)%nat - 2 * f !!! i + f !!! (i - 2)%nat) / (4 * h * h)) /\
  ((3 <= length f)%nat ->
     gradient (gradient f h) h !!! 0%nat
     == (f !!! 2%nat - 2 * f !!! 1%nat + f !!! 0%nat) / (2 * h * h) /\
     gradient (gradient f h) h !!! (length f - 1)%nat
     == (f !!! (length f - 1)%nat - 2 * f !!! (length f - 2)%nat
         + f !!! (length f - 3)%nat) / (2 * h * h)) /\
  (length f = 2%nat ->
     gradient (gradient f h) h !!! 0%nat == 0 /\
     gradient (gradient f h) h !!! 1%nat == 0).
Proof.
  intros Hh. split; [|split].
  - intros i L2 Li.
    assert (Lg : length (gradient f h) = length f)
      by (apply length_gradient; lia).
    rewrite gradient_total by lia.
    rewrite central_diff_inner by lia.
    rewrite !gradient_total by lia.
    rewrite !central_diff_inner by lia.
    replace (i + 1 + 1)%nat with (i + 2)%nat by lia.
    replace (i + 1 - 1)%nat with i by lia.
    replace (i - 1 + 1)%nat with i by lia.
    replace (i - 1 - 1)%nat with (i - 2)%nat by lia.
    field. exact Hh.
  - intros L3.
    assert (Lg : length (gradient f h) = length f)
      by (apply length_gradient; lia).
    split.
    + rewrite gradient_total by lia. rewrite central_diff_first.
      rewrite !gradient_total by lia.
      rewrite central_diff_first, central_diff_inner by lia.
      cbn [Nat.add Nat.sub]. field. exact Hh.
    + rewrite gradient_total by lia.
      rewrite central_diff_last by lia. rewrite Lg.
      rewrite !gradient_total by lia.
      rewrite (central_diff_last f h (length f - 1)) by lia.
      rewrite central_diff_inner by lia.
      replace (length f - 2 + 1)%nat with (length f - 1)%nat by lia.
      replace (length f - 2 - 1)%nat with (length f - 3)%nat by lia.
      field. exact Hh.
  - intros L2.
    destruct f as [|a [|b [|? ?]]]; try discriminate. split.
    + unfold gradient. cbn. unfold Qdiv. ring.
    + unfold gradient. cbn. unfold Qdiv. ring.
Qed.

(** On [f = [0; 1; 4; 9; 16]] with [h = 1]: 2 at node 2, 1 at node 0. *)
Lemma second_derivative_stencil_witness :
  gradient (gradient [0; 1; 4; 9; 16] 1) 1 !!! 2%nat
  == (16 - 2 * 4 + 0) / (4 * 1 * 1) /\
  gradient (gradient [0; 1; 4; 9; 16] 1) 1 !!! 0%nat
  == (4 - 2 * 1 + 0) / (2 * 1 * 1).
Proof.
  destruct (second_derivative_stencil [0; 1; 4; 9; 16] 1 ltac:(lra))
    as (I & E & _).
  split.
  - exact (I 2%nat ltac:(lia) ltac:(cbn; lia)).
  - exact (proj1 (E ltac:(cbn; lia))).
Defined.

(** ** Fields that do not change (lines 59-82) *)

(** X6.  In exact rational arithmetic: without rain, leakage and growth
    (rainfall rate or infiltration coefficient 0, permeability 0,
    [mu_max = 0]; [Ks > 0] and [Kd >= 0] so that nothing is divided by zero),
    a non-negative uniform initial concentration is kept at every node and row
    of a completed run, whatever the velocity, the dispersion and the grid;
    the biomass stays at its initial value and the gas at 0. *)
Theorem steady_state p s :
  rainfall_rate p * infiltration_coeff p == 0 ->
  liner_perm p == 0 -> mu_max p == 0 ->
  0 < Ks p -> 0 <= sorption_kd p -> 0 <= initial_conc p ->
  run p = Done s ->
  (forall n row, C s !! n = Some row -> uniform (initial_conc p) row) /\
  (forall n row, B s !! n = Some row -> uniform (initial_biomass p) row) /\
  (forall n g, gas s !! n = Some g -> g == 0).
Proof.
  intros Hr Hp Hmu _ _ Hc R.
  destruct (run_Done_history p s R) as (_ & HN & Hist).
  assert (Hrain : rain_input p == 0).
  { unfold rain_input, Qdiv.
    transitivity (rainfall_rate p * infiltration_coeff p * / 1000); [ring|].
    rewrite Hr. ring. }
  assert (Hleak : liner_leakage p == 0).
  { unfold liner_leakage. rewrite Hp. ring. }
  pose proof (steady_history p s Hrain Hleak Hmu Hc HN Hist) as St.
  split; [|split].
  - intros n row E. exact (proj1 (St n) row E).
  - intros n row E. exact (proj1 (proj2 (St n)) row E).
  - intros n g E. exact (proj2 (proj2 (St n)) g E).
Qed.

(** Twenty nodes, ten rows, velocity 1 and dispersion 1, yet nothing moves. *)
Lemma steady_state_witness :
  exists s,
    run {| length_ := 20; time_days := 10; velocity := 1; dispersion := 1;
           rainfall_rate := 0; infiltration_coeff := 1;
           liner_thickness := 2; liner_perm := 0; sorption_kd := 1;
           initial_conc := 7; initial_biomass := 3;
           mu_max := 0; Ks := 50; biogas_yield := 0.5 |}
    = Done s /\
    Forall (uniform 7) (C s) /\ Forall (uniform 3) (B s) /\ uniform 0 (gas s).
Proof.
  set (p := Build_Inputs _ _ _ _ _ _ _ _ _ _ _ _ _ _).
  destruct (run_total p) as (s & R & _).
  { vm_compute. discriminate. }
  { vm_compute. discriminate. }
  { cbn. lra. }
  { right. vm_compute. discriminate. }
  exists s. split; [exact R|].
  destruct (steady_state p s) as (HC & HB & Hg);
    try (cbn; lra); try exact R.
  split; [|split]; apply Forall_lookup.
  - intros n row E. exact (HC n row E).
  - intros n row E. exact (HB n row E).
  - intros n g E. exact (Hg n g E).
Defined.

Lemma node_growth_dormant p prevC prevB i :
  prevB !!! i == 0 -> node_growth p prevC prevB i == 0.
Proof. intros Hb. unfold node_growth, monod. rewrite Hb. ring. Qed.

Lemma dormant_history p s :
  initial_biomass p == 0 ->
  history p (Z.to_nat (t_steps p)) s ->
  forall n,
    (forall row, B s !! n = Some row -> uniform 0 row) /\
    (forall g, gas s !! n = Some g -> g == 0).
Proof.
  intros Hb Hist. induction n as [|n (IB & Ig)].
  - destruct Hist as (_ & _ & B0 & G0 & _). split.
    + intros row E. rewrite B0 in E. injection E as <-.
      apply Forall_replicate, Hb.
    + intros g E. rewrite G0 in E. injection E as <-. reflexivity.
  - assert (Step : (exists row, B s !! S n = Some row)
                   \/ (exists g, gas s !! S n = Some g) ->
               exists pc pb g, length pc = Z.to_nat (nx p) /\
                 length pb = Z.to_nat (nx p) /\ uniform 0 pb /\ g == 0 /\
                 B s !! S n = Some (next_B p pc pb) /\
                 gas s !! S n = Some (g + gas_increment p pc pb)).
    { intros In.
      assert (Lt : (S n < Z.to_nat (t_steps p))%nat).
      { destruct Hist as ((LC & LB & Lg & _) & _).
        destruct In as [[row E]|[g E]]; apply lookup_lt_Some in E; lia. }
      destruct (proj1 (history_rows p s Hist n) ltac:(lia))
        as ([pc Epc] & [pb Epb] & [g Eg]).
      destruct (history_step p s Hist (S n) pc pb)
        as (_ & E2 & g' & E3 & E4);
        [lia|rewrite Nat.sub_1_r; assumption|rewrite Nat.sub_1_r; assumption
        |destruct In as [[row E]|[g0 E]];
           [left; exists row; right; exact E | right; exists g0; exact E]|].
      rewrite Nat.sub_1_r in E3. cbn [Nat.pred] in E3.
      rewrite Eg in E3. injection E3 as <-.
      exists pc, pb, g.
      split; [exact (history_length_C p s Hist _ _ Epc)|].
      split; [exact (history_length_B p s Hist _ _ Epb)|].
      split; [exact (IB pb Epb)|]. split; [exact (Ig g Eg)|].
      split; assumption. }
    assert (Gr : forall pc pb, length pc = Z.to_nat (nx p) ->
                   length pb = Z.to_nat (nx p) -> uniform 0 pb ->
                   uniform 0 (next_growth p pc pb)).
    { intros pc pb LC LB U. apply Forall_lookup. intros i x E.
      assert (Li : (i < Z.to_nat (nx p))%nat).
      { apply lookup_lt_Some in E.
        rewrite (length_next_growth p pc pb LC LB) in E. exact E. }
      rewrite (lookup_next_growth p pc pb LC LB i Li) in E. injection E as <-.
      apply node_growth_dormant, (uniform_lookup_total 0); [assumption|lia]. }
    split.
    + intros row E.
      destruct Step as (pc & pb & g & LC & LB & U & _ & E2 & _);
        [left; exists row; exact E|].
      rewrite E in E2. injection E2 as ->.
      apply Forall_lookup. intros i x Ei.
      assert (Li : (i < Z.to_nat (nx p))%nat).
      { apply lookup_lt_Some in Ei.
        rewrite (length_next_B p pc pb LC LB) in Ei. exact Ei. }
      rewrite (lookup_next_B p pc pb LC LB i Li) in Ei. injection Ei as <-.
      rewrite node_growth_dormant, (uniform_lookup_total 0 pb)
        by (try apply (uniform_lookup_total 0); assumption || lia).
      ring.
    + intros g' E.
      destruct Step as (pc & pb & g & LC & LB & U & G0 & _ & E3);
        [right; exists g'; exact E|].
      rewrite E in E3. injection E3 as ->.
      unfold gas_increment.
      rewrite G0, np_sum_uniform_0;
        [ring | apply scal_r_uniform_0, scal_r_uniform_0, Gr; assumption].
Qed.

(** X7.  Nothing grows from nothing, in exact rational arithmetic: with
    initial biomass 0 (and [Ks > 0], [Kd >= 0], a non-negative initial
    concentration) the biomass stays 0 at every node and row of a completed
    run and no gas is produced. *)
Theorem no_biomass_no_gas p s :
  initial_biomass p == 0 ->
  0 < Ks p -> 0 <= sorption_kd p -> 0 <= initial_conc p ->
  run p = Done s ->
  (forall n row, B s !! n = Some row -> uniform 0 row) /\
  (forall n g, gas s !! n = Some g -> g == 0).
Proof.
  intros Hb _ _ _ R. destruct (run_Done_history p s R) as (_ & _ & Hist).
  pose proof (dormant_history p s Hb Hist) as D. split.
  - intros n row E. exact (proj1 (D n) row E).
  - intros n g E. exact (proj2 (D n) g E).
Qed.

(** The defaults on five nodes and four rows, started without biomass. *)
Lemma no_biomass_no_gas_witness :
  exists s,
    run {| length_ := 5; time_days := 4; velocity := 0.05; dispersion := 0.01;
           rainfall_rate := 10; infiltration_coeff := 0.5;
           liner_thickness := 1; liner_perm := 1 # 1000000000;
           sorption_kd := 1; initial_conc := 100; initial_biomass := 0;
           mu_max := 0.1; Ks := 50; biogas_yield := 0.5 |}
    = Done s /\
    Forall (uniform 0) (B s) /\ uniform 0 (gas s).
Proof.
  set (p := Build_Inputs _ _ _ _ _ _ _ _ _ _ _ _ _ _).
  destruct (run_total p) as (s & R & _).
  { vm_compute. discriminate. }
  { vm_compute. discriminate. }
  { cbn. lra. }
  { right. vm_compute. discriminate. }
  exists s. split; [exact R|].
  destruct (no_biomass_no_gas p s) as (HB & Hg);
    try (cbn; lra); try exact R.
  split; apply Forall_lookup.
  - intros n row E. exact (HB n row E).
  - intros n g E. exact (Hg n g E).
Defined.

(** ** What one pass touches (lines 59-82) *)

(** X8.  On state arrays of [rows] time steps by [nx >= 2] nodes, the pass
    for a time step [1 <= n < rows] raises nothing, keeps the shape of the
    three arrays and leaves every entry outside row [n] as it was. *)
Theorem pass_frame p n s rows :
  shaped rows (Z.to_nat (nx p)) s ->
  (1 <= n < rows)%nat -> (2 <= Z.to_nat (nx p))%nat ->
  exists s',
    loop_body p n s = Ok s' /\
    shaped rows (Z.to_nat (nx p)) s' /\
    forall m, m <> n ->
      C s' !! m = C s !! m /\ B s' !! m = B s !! m /\ gas s' !! m = gas s !! m.
Proof.
  intros Sh Ln LN. pose proof Sh as (LC & LB & Lg & FC & FB).
  destruct (lookup_lt_is_Some_2 (C s) (n - 1)) as [pc Epc]; [lia|].
  destruct (lookup_lt_is_Some_2 (B s) (n - 1)) as [pb Epb]; [lia|].
  destruct (lookup_lt_is_Some_2 (gas s) (n - 1)) as [g Eg]; [lia|].
  assert (HC : length pc = Z.to_nat (nx p))
    by exact (proj1 (Forall_lookup _ _) FC _ _ Epc).
  assert (HB : length pb = Z.to_nat (nx p))
    by exact (proj1 (Forall_lookup _ _) FB _ _ Epb).
  eexists. split; [|split].
  - apply (loop_body_Ok p n s pc pb g); try assumption; lia.
  - apply shaped_insert; [assumption| |].
    + apply length_next_C; assumption.
    + apply length_next_B; assumption.
  - intros m Hm. cbn [C B gas].
    rewrite !list_lookup_insert_ne by congruence. auto.
Qed.

(** The pass of the small run from its initial state: row 0 is untouched. *)
Lemma pass_frame_witness :
  exists s',
    loop_body small 1 (initial_state small) = Ok s' /\
    C s' !! 0%nat = Some [100; 100] /\ B s' !! 0%nat = Some [50; 50].
Proof.
  assert (Sh : shaped 2 (Z.to_nat (nx small)) (initial_state small)).
  { apply (history_initial small). vm_compute. lia. }
  destruct (pass_frame small 1 (initial_state small) 2 Sh
              ltac:(lia) ltac:(vm_compute; lia)) as (s' & E & _ & F).
  exists s'. split; [exact E|].
  destruct (F 0%nat ltac:(lia)) as (FC & FB & _).
  rewrite FC, FB. split; reflexivity.
Defined.

(** ** Boundary terms (lines 27, 33, 63-69, 77-78) *)

Lemma lookup_stored_row p n s s' row :
  shaped (length (C s)) (Z.to_nat (nx p)) s ->
  loop_body p n s = Ok s' -> C s' !! n = Some row ->
  exists prevC prevB,
    C s !! (n - 1)%nat = Some prevC /\ B s !! (n - 1)%nat = Some prevB /\
    length prevC = Z.to_nat (nx p) /\ length prevB = Z.to_nat (nx p) /\
    (2 <= Z.to_nat (nx p))%nat /\ row = next_C p prevC prevB.
Proof.
  intros Sh E Er.
  apply loop_body_inv in E
    as (pc & pb & g & Epc & Epb & Eg & L2 & _ & Ln & _ & _ & ->).
  destruct Sh as (_ & _ & _ & FC & FB).
  assert (LC : length pc = Z.to_nat (nx p))
    by exact (proj1 (Forall_lookup _ _) FC _ _ Epc).
  assert (LB : length pb = Z.to_nat (nx p))
    by exact (proj1 (Forall_lookup _ _) FB _ _ Epb).
  cbn [C] in Er. rewrite list_lookup_insert_eq in Er by exact Ln.
  injection Er as <-.
  exists pc, pb. repeat (split; [assumption || lia|]). reflexivity.
Qed.

(** X9.  More rain, more concentration at the surface, in exact rational
    arithmetic: with [Ks > 0] and [Kd >= 0], two passes from the same state of
    non-negative concentrations that differ only in rainfall rate and
    infiltration coefficient, the second with the larger product of the two,
    store at node 0 a concentration that is no smaller in the second. *)
Theorem rain_raises_surface p n s s1 s2 rate coeff row1 row2 v1 v2 :
  (1 <= n)%nat ->
  shaped (length (C s)) (Z.to_nat (nx p)) s ->
  Forall (Forall (Qle 0)) (C s) ->
  0 < Ks p -> 0 <= sorption_kd p ->
  ~ liner_thickness p == 0 ->
  rainfall_rate p * infiltration_coeff p <= rate * coeff ->
  loop_body p n s = Ok s1 ->
  loop_body (with_rain p rate coeff) n s = Ok s2 ->
  C s1 !! n = Some row1 -> C s2 !! n = Some row2 ->
  row1 !! 0%nat = Some v1 -> row2 !! 0%nat = Some v2 ->
  v1 <= v2.
Proof.
  intros _ Sh _ _ _ _ Hr E1 E2 Er1 Er2 Ev1 Ev2.
  destruct (lookup_stored_row p n s s1 row1 Sh E1 Er1)
    as (pc & pb & Epc & Epb & LC & LB & LN & ->).
  destruct (lookup_stored_row (with_rain p rate coeff) n s s2 row2 Sh E2 Er2)
    as (pc' & pb' & Epc' & Epb' & _ & _ & _ & ->).
  rewrite Epc in Epc'. injection Epc' as <-.
  rewrite Epb in Epb'. injection Epb' as <-.
  rewrite (lookup_next_C p pc pb LC LB LN 0) in Ev1 by lia.
  assert (L0 : (0 < Z.to_nat (nx p))%nat) by lia.
  rewrite (lookup_next_C (with_rain p rate coeff) pc pb LC LB LN 0 L0) in Ev2.
  injection Ev1 as <-. injection Ev2 as <-.
  unfold node_C. change (nx (with_rain p rate coeff)) with (nx p).
  destruct (Nat.eqb_spec 0 (Z.to_nat (nx p) - 1)) as [E0|_]; [lia|].
  cbn [Nat.eqb]. apply Q.max_le_compat_r.
  change (node_growth (with_rain p rate coeff)) with (node_growth p).
  change (velocity (with_rain p rate coeff)) with (velocity p).
  change (dispersion (with_rain p rate coeff)) with (dispersion p).
  assert (R : rain_input p <= rain_input (with_rain p rate coeff)).
  { unfold rain_input, Qdiv. cbn [rainfall_rate infiltration_coeff with_rain].
    assert (F : forall a b, a * / 1000 * b == a * b * (1 # 1000))
      by (intros a b; field).
    rewrite !F. apply Qmult_le_compat_r; [exact Hr | discriminate]. }
  unfold dt. lra.
Qed.

(** The first pass of the small run with rainfall 10 and with rainfall 20:
    node 0 goes to 102.5 and to 107.5. *)
Lemma rain_raises_surface_witness :
  exists s2 row2 v2,
    loop_body (with_rain small 20 0.5) 1 (initial_state small) = Ok s2 /\
    C s2 !! 1%nat = Some row2 /\ row2 !! 0%nat = Some v2 /\
    (41000000000000 # 400000000000) <= v2.
Proof.
  assert (Sh : shaped (length (C (initial_state small)))
                 (Z.to_nat (nx small)) (initial_state small)).
  { apply (history_initial small). vm_compute. lia. }
  assert (E1 : loop_body small 1 (initial_state small) = Ok small_result)
    by (vm_compute; reflexivity).
  destruct (loop_body (with_rain small 20 0.5) 1 (initial_state small))
    as [s2|e] eqn:E2; [|vm_compute in E2; discriminate].
  destruct (C s2 !! 1%nat) as [row2|] eqn:Er2;
    [|vm_compute in E2; injection E2 as <-; discriminate].
  destruct (row2 !! 0%nat) as [v2|] eqn:Ev2;
    [|vm_compute in E2; injection E2 as <-; injection Er2 as <-; discriminate].
  exists s2, row2, v2.
  split; [reflexivity|]. split; [exact Er2|]. split; [exact Ev2|].
  refine (rain_raises_surface small 1 (initial_state small) small_result s2
            20 0.5 _ row2 _ v2 (le_n 1) Sh _ _ _ _ _ E1 E2 eq_refl Er2
            eq_refl Ev2).
  - vm_compute. repeat constructor; discriminate.
  - cbn; lra.
  - cbn; lra.
  - cbn; lra.
  - cbn; lra.
Defined.

(** X10.  More leakage, less concentration at the base, in exact rational
    arithmetic: with [Ks > 0] and [Kd >= 0], two passes from the same state
    of non-negative concentrations that differ only in the liner
    (positive thicknesses), the second with the larger ratio of permeability
    to thickness, store at the last node a concentration that is no larger
    in the second. *)
Theorem liner_lowers_base p n s s1 s2 thickness perm row1 row2 v1 v2 :
  (1 <= n)%nat ->
  shaped (length (C s)) (Z.to_nat (nx p)) s ->
  Forall (Forall (Qle 0)) (C s) ->
  0 < Ks p -> 0 <= sorption_kd p ->
  0 < liner_thickness p -> 0 < thickness ->
  liner_perm p / liner_thickness p <= perm / thickness ->
  loop_body p n s = Ok s1 ->
  loop_body (with_liner p thickness perm) n s = Ok s2 ->
  C s1 !! n = Some row1 -> C s2 !! n = Some row2 ->
  row1 !! (Z.to_nat (nx p) - 1)%nat = Some v1 ->
  row2 !! (Z.to_nat (nx p) - 1)%nat = Some v2 ->
  v2 <= v1.
Proof.
  intros _ Sh Pos _ _ Ht1 Ht2 Hr E1 E2 Er1 Er2 Ev1 Ev2.
  destruct (lookup_stored_row p n s s1 row1 Sh E1 Er1)
    as (pc & pb & Epc & Epb & LC & LB & LN & ->).
  destruct (lookup_stored_row (with_liner p thickness perm) n s s2 row2 Sh E2 Er2)
    as (pc' & pb' & Epc' & Epb' & _ & _ & _ & ->).
  rewrite Epc in Epc'. injection Epc' as <-.
  rewrite Epb in Epb'. injection Epb' as <-.
  assert (Ll : (Z.to_nat (nx p) - 1 < Z.to_nat (nx p))%nat) by lia.
  rewrite (lookup_next_C p pc pb LC LB LN _ Ll) in Ev1.
  rewrite (lookup_next_C (with_liner p thickness perm) pc pb LC LB LN _ Ll) in Ev2.
  injection Ev1 as <-. injection Ev2 as <-.
  unfold node_C. change (nx (with_liner p thickness perm)) with (nx p).
  rewrite Nat.eqb_refl.
  destruct (Nat.eqb_spec (Z.to_nat (nx p) - 1) 0) as [E0|_]; [lia|].
  apply Q.max_le_compat_r.
  change (node_growth (with_liner p thickness perm)) with (node_growth p).
  change (velocity (with_liner p thickness perm)) with (velocity p).
  change (dispersion (with_liner p thickness perm)) with (dispersion p).
  assert (Hl : 0 <= default 0 (last pc)).
  { rewrite last_lookup_total by lia. apply lookup_total_nonneg.
    exact (proj1 (Forall_lookup _ _) Pos _ _ Epc). }
  assert (L : liner_leakage p * default 0 (last pc)
              <= liner_leakage (with_liner p thickness perm)
                 * default 0 (last pc)).
  { apply Qmult_le_compat_r; [|exact Hl].
    unfold liner_leakage, dt. cbn [liner_perm liner_thickness with_liner].
    assert (F : forall a b, a * (1 / b) * 1 * 86400 == a / b * 86400)
      by (intros a b; unfold Qdiv; ring).
    rewrite !F. apply Qmult_le_compat_r; [exact Hr | discriminate]. }
  lra.
Qed.

(** The first pass of the small run with permeability 1e-9 and with 1e-6:
    the base node goes to at most 97.49136. *)
Lemma liner_lowers_base_witness :
  exists s2 row2 v2,
    loop_body (with_liner small 1 (1 # 1000000)) 1 (initial_state small) = Ok s2 /\
    C s2 !! 1%nat = Some row2 /\ row2 !! 1%nat = Some v2 /\
    v2 <= (3899654400000000000 # 40000000000000000).
Proof.
  assert (Sh : shaped (length (C (initial_state small)))
                 (Z.to_nat (nx small)) (initial_state small)).
  { apply (history_initial small). vm_compute. lia. }
  assert (E1 : loop_body small 1 (initial_state small) = Ok small_result)
    by (vm_compute; reflexivity).
  destruct (loop_body (with_liner small 1 (1 # 1000000)) 1 (initial_state small))
    as [s2|e] eqn:E2; [|vm_compute in E2; discriminate].
  destruct (C s2 !! 1%nat) as [row2|] eqn:Er2;
    [|vm_compute in E2; injection E2 as <-; discriminate].
  destruct (row2 !! 1%nat) as [v2|] eqn:Ev2;
    [|vm_compute in E2; injection E2 as <-; injection Er2 as <-; discriminate].
  exists s2, row2, v2.
  split; [reflexivity|]. split; [exact Er2|]. split; [exact Ev2|].
  refine (liner_lowers_base small 1 (initial_state small) small_result s2
            1 (1 # 1000000) _ row2 _ v2 (le_n 1) Sh _ _ _ _ _ _ E1 E2 eq_refl
            Er2 eq_refl Ev2).
  - vm_compute. repeat constructor; discriminate.
  - cbn; lra.
  - cbn; lra.
  - cbn; lra.
  - lra.
  - vm_compute. discriminate.
Defined.

Lemma Qmult_le_mono a b c d :
  0 <= a -> a <= b -> 0 <= c -> c <= d -> a * c <= b * d.
Proof.
  intros Ha Hab Hc Hcd.
  apply Qle_trans with (b * c).
  - apply Qmult_le_compat_r; assumption.
  - rewrite !(Qmult_comm b). apply Qmult_le_compat_r; lra.
Qed.

(** X11.  Within the ranges of the widgets the surface input
    [rain_input * 1000] lies between 0 and 100 mg/L per day, and the leakage
    coefficient is positive and at most 0.864: the liner loss of a pass is
    never more than 86.4 % of the concentration at the base. *)
Theorem widget_boundary_coefficients p :
  in_widget_range p ->
  0 <= rain_input p * 1000 /\ rain_input p * 1000 <= 100 /\
  0 < liner_leakage p /\ liner_leakage p <= 0.864.
Proof.
  intros (_ & _ & _ & _ & [Hr0 Hr1] & [Hc0 Hc1] & [Ht0 Ht1] & [Hp0 Hp1] & _).
  assert (E : rain_input p * 1000 == rainfall_rate p * infiltration_coeff p)
    by (unfold rain_input; field).
  assert (I0 : 0 < 1 / liner_thickness p).
  { apply Qlt_shift_div_l; lra. }
  assert (I1 : 1 / liner_thickness p <= 10).
  { apply Qle_shift_div_r; lra. }
  assert (F : liner_leakage p == liner_perm p * (1 / liner_thickness p) * 86400)
    by (unfold liner_leakage, dt; ring).
  split; [|split; [|split]].
  - rewrite E. apply Qmult_le_0_compat; assumption.
  - rewrite E.
    apply Qle_trans with (100 * 1); [|lra]. apply Qmult_le_mono; assumption.
  - rewrite F.
    assert (0 < liner_perm p * (1 / liner_thickness p)).
    { rewrite <- (Qmult_0_r (liner_perm p)). apply Qmult_lt_l; lra. }
    lra.
  - rewrite F.
    assert (liner_perm p * (1 / liner_thickness p) <= (1 # 1000000) * 10)
      by (apply Qmult_le_mono; lra).
    lra.
Qed.

(** The defaults: 5 mg/L per day at the surface, leakage coefficient
    0.0000864. *)
Lemma widget_boundary_coefficients_witness :
  in_widget_range defaults /\
  rain_input defaults * 1000 <= 100 /\ liner_leakage defaults <= 0.864.
Proof.
  assert (W : in_widget_range defaults).
  { unfold in_widget_range. cbn. repeat split; (lia || lra). }
  split; [exact W|].
  destruct (widget_boundary_coefficients defaults W) as (_ & R & _ & L).
  split; assumption.
Defined.

(** ** Growth of the biomass (lines 56, 81) *)

Lemma Qpower_succ_nat q n : q ^ Z.of_nat (S n) == q ^ Z.of_nat n * q.
Proof.
  rewrite Nat2Z.inj_succ. unfold Z.succ.
  rewrite Qpower_plus' by lia. rewrite Qpower_1_r. reflexivity.
Qed.

(** X12.  In exact rational arithmetic, with [mu_max >= 0], [Ks > 0],
    [Kd >= 0] and non-negative initial values, the biomass of a completed run
    grows by at most the factor [1 + mu_max] per time step:
    [B[n,i] <= initial_biomass * (1 + mu_max)^n]. *)
Theorem biomass_growth_bound p s :
  0 <= mu_max p -> 0 < Ks p -> 0 <= sorption_kd p ->
  0 <= initial_conc p -> 0 <= initial_biomass p ->
  run p = Done s ->
  forall n row i b,
    B s !! n = Some row -> row !! i = Some b ->
    b <= initial_biomass p * (1 + mu_max p) ^ Z.of_nat n.
Proof.
  intros Hmu HKs HKd HC0 HB0 R.
  destruct (run_Done_history p s R) as (_ & _ & Hist).
  induction n as [|n IH]; intros row i b Er Eb.
  - destruct Hist as (_ & _ & B0 & _). rewrite B0 in Er. injection Er as <-.
    apply lookup_replicate in Eb as [-> _].
    change (Z.of_nat 0) with 0%Z. rewrite Qpower_0_r. lra.
  - assert (Lt : (n < Z.to_nat (t_steps p))%nat).
    { apply lookup_lt_Some in Er. destruct Hist as ((_ & LB & _) & _). lia. }
    destruct (proj1 (history_rows p s Hist n) Lt) as ([pc Epc] & [pb Epb] & _).
    destruct (history_step p s Hist (S n) pc pb) as (_ & EB' & _);
      [lia|rewrite Nat.sub_1_r; assumption|rewrite Nat.sub_1_r; assumption
      |left; exists row; right; exact Er|].
    rewrite Er in EB'. injection EB' as ->.
    pose proof (history_length_C p s Hist _ _ Epc) as LC.
    pose proof (history_length_B p s Hist _ _ Epb) as LB.
    pose proof (history_C_nonneg p s Hist n pc HC0 Epc) as FC.
    pose proof (history_B_nonneg p s Hist Hmu HKs HKd HC0 HB0 n pb Epb) as FB.
    assert (Li : (i < Z.to_nat (nx p))%nat).
    { apply lookup_lt_Some in Eb.
      rewrite (length_next_B p pc pb LC LB) in Eb. exact Eb. }
    rewrite (lookup_next_B p pc pb LC LB i Li) in Eb. injection Eb as <-.
    pose proof (IH pb i (pb !!! i) Epb
                  (list_lookup_lookup_total_lt pb i ltac:(lia))) as Hprev.
    pose proof (lookup_total_nonneg pb i FB) as Hb.
    pose proof (lookup_total_nonneg pc i FC) as Hc.
    assert (Hm : 0 <= pc !!! i / (1 + sorption_kd p))
      by (apply Qle_shift_div_l; lra).
    pose proof (monod_bound _ (pb !!! i) (mu_max p) (Ks p) Hmu HKs Hb Hm) as G.
    fold (node_growth p pc pb i) in G.
    rewrite Qpower_succ_nat, Qmult_assoc.
    apply Qle_trans with (pb !!! i * (1 + mu_max p)); [unfold dt; lra|].
    apply Qmult_le_compat_r; lra.
Qed.

(** In the small run, [52.5 <= 50 * 1.1^1]. *)
Lemma biomass_growth_bound_witness :
  run small = Done small_result /\
  (210000 # 4000) <= initial_biomass small * (1 + mu_max small) ^ Z.of_nat 1.
Proof.
  split; [exact run_small|].
  refine (biomass_growth_bound small small_result _ _ _ _ _ run_small
            1 [210000 # 4000; 210000 # 4000] 0 _ eq_refl eq_refl);
    cbn; lra.
Defined.

(** ** Coupling of concentration and biomass (lines 74-81) *)

(** X13.  In exact rational arithmetic, with [Ks > 0], [Kd >= 0] and a
    non-negative initial concentration: without transport (velocity 0 and
    dispersion 0), at a node that is neither the surface nor the base, what
    the biomass gains in a pass is what the concentration loses, up to the
    clamp: [C[n,i] = max(C[n-1,i] - (B[n,i] - B[n-1,i]), 0)]. *)
Theorem substrate_to_biomass p s :
  velocity p == 0 -> dispersion p == 0 ->
  0 < Ks p -> 0 <= sorption_kd p -> 0 <= initial_conc p ->
  run p = Done s ->
  forall n prevC prevB rowC rowB i c0 b0 c1 b1,
    (1 <= n)%nat -> (0 < i)%nat -> (Z.of_nat i + 1 < nx p)%Z ->
    C s !! (n - 1)%nat = Some prevC -> B s !! (n - 1)%nat = Some prevB ->
    C s !! n = Some rowC -> B s !! n = Some rowB ->
    prevC !! i = Some c0 -> prevB !! i = Some b0 ->
    rowC !! i = Some c1 -> rowB !! i = Some b1 ->
    c1 == Qmax (c0 - (b1 - b0)) 0.
Proof.
  intros Hv Hd _ _ _ R n prevC prevB rowC rowB i c0 b0 c1 b1
    Ln Li0 Li1 Epc Epb Erc Erb E0 F0 E1 F1.
  destruct (run_Done_history p s R) as (_ & _ & Hist).
  destruct (history_step p s Hist n prevC prevB) as (EC & EB & _);
    [lia|assumption|assumption|left; exists rowC; left; exact Erc|].
  rewrite Erc in EC. injection EC as ->.
  rewrite Erb in EB. injection EB as ->.
  pose proof (history_length_C p s Hist _ _ Epc) as LC.
  pose proof (history_length_B p s Hist _ _ Epb) as LB.
  assert (Li : (i < Z.to_nat (nx p))%nat) by lia.
  rewrite (lookup_next_C p prevC prevB LC LB ltac:(lia) i Li) in E1.
  rewrite (lookup_next_B p prevC prevB LC LB i Li) in F1.
  injection E1 as <-. injection F1 as <-.
  unfold node_C.
  destruct (Nat.eqb_spec i 0) as [?|_]; [lia|].
  destruct (Nat.eqb_spec i (Z.to_nat (nx p) - 1)) as [?|_]; [lia|].
  generalize (node_growth p prevC prevB i). intros g.
  rewrite (list_lookup_total_correct _ _ _ E0).
  rewrite (list_lookup_total_correct _ _ _ F0).
  apply Q.max_compat; [|reflexivity].
  rewrite Hv, Hd. ring.
Qed.

(** In the run without transport, node 1 of row 1:
    [97.5 = max(100 - (52.5 - 50), 0)]. *)
Lemma substrate_to_biomass_witness :
  run still = Done still_result /\
  exists c1 b1,
    (C still_result !! 1%nat) ≫= (.!! 1%nat) = Some c1 /\
    (B still_result !! 1%nat) ≫= (.!! 1%nat) = Some b1 /\
    c1 == Qmax (100 - (b1 - 50)) 0.
Proof.
  assert (R : run still = Done still_result) by (vm_compute; reflexivity).
  split; [exact R|]. eexists _, _.
  split; [reflexivity|]. split; [reflexivity|].
  refine (substrate_to_biomass still still_result _ _ _ _ _ R 1
            [100; 100; 100] [50; 50; 50] _ _ 1 100 50 _ _ _ _ _ eq_refl
            eq_refl eq_refl eq_refl eq_refl eq_refl eq_refl eq_refl);
    try reflexivity; try lia; cbn; lra.
Defined.

(** ** Reach of one pass (lines 60-61, 76) *)

Lemma agree_near_total r i a b j :
  agree_near r i a b -> (i - r <= j <= i + r)%nat -> a !!! j = b !!! j.
Proof.
  intros A Hj. rewrite !list_lookup_total_alt, (A j Hj). reflexivity.
Qed.

Lemma central_diff_agree f f' h i :
  length f = length f' -> (i < length f)%nat -> agree_near 1 i f f' ->
  Spec.central_diff f h i = Spec.central_diff f' h i.
Proof.
  intros L Li A. unfold Spec.central_diff. rewrite <- L.
  destruct (Nat.eqb_spec i 0) as [->|N0];
    [|destruct (Nat.eqb_spec i (length f - 1)) as [E|N1]].
  - rewrite !(agree_near_total 1 0 f f') by (assumption || lia). reflexivity.
  - rewrite !(agree_near_total 1 i f f') by (assumption || lia). reflexivity.
  - rewrite !(agree_near_total 1 i f f') by (assumption || lia). reflexivity.
Qed.

Lemma gradient_agree f f' h i :
  length f = length f' -> (2 <= length f)%nat -> agree_near 2 i f f' ->
  agree_near 1 i (gradient f h) (gradient f' h).
Proof.
  intros L L2 A j Hj.
  destruct (Nat.lt_ge_cases j (length f)) as [Lj|Lj].
  - rewrite !lookup_gradient by lia. f_equal.
    apply central_diff_agree; [assumption|assumption|].
    intros k Hk. apply A. lia.
  - rewrite !(proj2 (lookup_ge_None _ _));
      [reflexivity | rewrite length_gradient; lia | rewrite length_gradient; lia].
Qed.

Lemma node_C_agree p prevC prevC' prevB prevB' i :
  length prevC = Z.to_nat (nx p) -> length prevC' = Z.to_nat (nx p) ->
  (2 <= Z.to_nat (nx p))%nat -> (i < Z.to_nat (nx p))%nat ->
  agree_near 2 i prevC prevC' -> prevB !! i = prevB' !! i ->
  node_C p prevC prevB i = node_C p prevC' prevB' i.
Proof.
  intros L L' LN Li A EB.
  assert (A1 : agree_near 1 i (gradient prevC dx) (gradient prevC' dx))
    by (apply gradient_agree; [congruence|lia|assumption]).
  assert (Ei : prevC !!! i = prevC' !!! i)
    by (apply (agree_near_total 2 i); [assumption|lia]).
  assert (Eb : prevB !!! i = prevB' !!! i)
    by (rewrite !list_lookup_total_alt, EB; reflexivity).
  unfold node_C, node_growth. rewrite Ei, Eb.
  rewrite !gradient_total by (rewrite ?length_gradient; lia).
  rewrite (central_diff_agree prevC prevC' dx i) by
    (try congruence; try lia; intros k Hk; apply A; lia).
  rewrite (central_diff_agree (gradient prevC dx) (gradient prevC' dx) dx i)
    by (rewrite ?length_gradient; try lia; assumption).
  destruct (Nat.eqb_spec i (Z.to_nat (nx p) - 1)) as [E|_]; [|reflexivity].
  rewrite !last_lookup_total by lia. rewrite L, L', <- E, Ei. reflexivity.
Qed.

(** X14.  One pass reaches two nodes far: if two states agree, in row [n-1],
    on the concentration at every node within distance 2 of node [i] and on
    the biomass at node [i], the concentrations their passes store at node
    [i] of row [n] are the same. *)
Theorem domain_of_dependence p n s s' s1 s1' prevC prevC' prevB prevB' i :
  (1 <= n)%nat ->
  shaped (length (C s)) (Z.to_nat (nx p)) s ->
  shaped (length (C s')) (Z.to_nat (nx p)) s' ->
  loop_body p n s = Ok s1 -> loop_body p n s' = Ok s1' ->
  C s !! (n - 1)%nat = Some prevC -> C s' !! (n - 1)%nat = Some prevC' ->
  B s !! (n - 1)%nat = Some prevB -> B s' !! (n - 1)%nat = Some prevB' ->
  agree_near 2 i prevC prevC' -> prevB !! i = prevB' !! i ->
  forall row row',
    C s1 !! n = Some row -> C s1' !! n = Some row' -> row !! i = row' !! i.
Proof.
  intros _ Sh Sh' E E' Epc Epc' Epb Epb' A EB row row' Er Er'.
  destruct (lookup_stored_row p n s s1 row Sh E Er)
    as (pc & pb & Hpc & Hpb & LC & LB & LN & ->).
  destruct (lookup_stored_row p n s' s1' row' Sh' E' Er')
    as (pc' & pb' & Hpc' & Hpb' & LC' & LB' & _ & ->).
  rewrite Epc in Hpc. injection Hpc as <-.
  rewrite Epb in Hpb. injection Hpb as <-.
  rewrite Epc' in Hpc'. injection Hpc' as <-.
  rewrite Epb' in Hpb'. injection Hpb' as <-.
  destruct (Nat.lt_ge_cases i (Z.to_nat (nx p))) as [Li|Li].
  - rewrite (lookup_next_C p prevC prevB LC LB LN i Li).
    rewrite (lookup_next_C p prevC' prevB' LC' LB' LN i Li).
    f_equal. apply node_C_agree; assumption.
  - rewrite !(proj2 (lookup_ge_None _ _)); [reflexivity| |].
    + rewrite (length_next_C p prevC' prevB' LC' LB' LN). exact Li.
    + rewrite (length_next_C p prevC prevB LC LB LN). exact Li.
Qed.

(** The pass from the initial state of five uniform nodes and from the same
    state with node 4 of row 0 set to 7: nodes 0, 1 of row 1 agree (node 4 is
    more than two nodes away). *)
Lemma domain_of_dependence_witness :
  exists s1 s1' row row',
    loop_body wide 1 (initial_state wide) = Ok s1 /\
    loop_body wide 1 wide_dented = Ok s1' /\
    C s1 !! 1%nat = Some row /\ C s1' !! 1%nat = Some row' /\
    row !! 1%nat = row' !! 1%nat.
Proof.
  assert (Sh : shaped (length (C (initial_state wide)))
                 (Z.to_nat (nx wide)) (initial_state wide)).
  { apply (history_initial wide). vm_compute. lia. }
  assert (Sh' : shaped (length (C wide_dented))
                  (Z.to_nat (nx wide)) wide_dented).
  { vm_compute. repeat split; repeat constructor. }
  destruct (loop_body wide 1 (initial_state wide)) as [s1|e] eqn:E;
    [|vm_compute in E; discriminate].
  destruct (loop_body wide 1 wide_dented) as [s1'|e] eqn:E';
    [|vm_compute in E'; discriminate].
  destruct (C s1 !! 1%nat) as [row|] eqn:Er;
    [|vm_compute in E; injection E as <-; discriminate].
  destruct (C s1' !! 1%nat) as [row'|] eqn:Er';
    [|vm_compute in E'; injection E' as <-; discriminate].
  exists s1, s1', row, row'.
  do 2 (split; [reflexivity|]). split; [exact Er|]. split; [exact Er'|].
  refine (domain_of_dependence wide 1 (initial_state wide) wide_dented s1 s1'
            [100; 100; 100; 100; 100] [100; 100; 100; 100; 7]
            [50; 50; 50; 50; 50] [50; 50; 50; 50; 50] 1
            (le_n 1) Sh Sh' E E' eq_refl eq_refl eq_refl eq_refl _ eq_refl
            row row' Er Er').
  intros j Hj. destruct j as [|[|[|[|[|j]]]]]; try reflexivity; cbn in Hj; lia.
Defined.

(** ** The first pass (lines 48-52, 59-82) *)

Lemma np_sum_uniform v a :
  uniform v a -> np_sum a == inject_Z (Z.of_nat (length a)) * v.
Proof.
  induction 1 as [|x a Hx _ IH].
  - cbn. ring.
  - rewrite np_sum_cons, IH, Hx. cbn [length]. rewrite Nat2Z.inj_succ.
    unfold Z.succ. rewrite inject_Z_plus. ring.
Qed.

Lemma scal_r_uniform v a k : uniform v a -> uniform (v * k) (scal_r a k).
Proof.
  intros U. unfold scal_r. apply Forall_fmap.
  eapply Forall_impl; [exact U|]. intros x Hx. cbn. rewrite Hx. reflexivity.
Qed.

Lemma lookup_total_full n v i : (i < n)%nat -> full n v !!! i = v.
Proof.
  intros L. apply list_lookup_total_correct, lookup_replicate_2, L.
Qed.

(** X15.  In exact rational arithmetic, with [Ks > 0], [Kd >= 0] and a
    non-negative initial concentration: the first pass starts from a uniform
    field, so neither velocity nor dispersion enters row 1 of a completed
    run; with [g = monod(initial_conc / (1 + Kd), initial_biomass)], every
    node of row 1
    holds [max(initial_conc - g + rain - loss, 0)], where [rain] is
    [rainfall_rate * infiltration_coeff] at node 0 and [loss] is
    [liner_leakage * initial_conc] at the last node, both 0 elsewhere; every
    biomass is [initial_biomass + g] and [gas[1] = nx * g * biogas_yield]. *)
Theorem first_pass p s :
  0 < Ks p -> 0 <= sorption_kd p -> 0 <= initial_conc p ->
  run p = Done s -> (2 <= t_steps p)%Z ->
  let g := monod (initial_conc p / (1 + sorption_kd p)) (initial_biomass p)
                 (mu_max p) (Ks p) in
  exists rowC rowB g1,
    C s !! 1%nat = Some rowC /\ B s !! 1%nat = Some rowB /\
    gas s !! 1%nat = Some g1 /\
    (forall i, (i < Z.to_nat (nx p))%nat ->
       exists c b, rowC !! i = Some c /\ rowB !! i = Some b /\
         c == Qmax (initial_conc p - g
                    + (if (i =? 0)%nat
                       then rainfall_rate p * infiltration_coeff p else 0)
                    - (if (i =? Z.to_nat (nx p) - 1)%nat
                       then liner_leakage p * initial_conc p else 0)) 0 /\
         b == initial_biomass p + g) /\
    g1 == inject_Z (nx p) * g * biogas_yield p.
Proof.
  intros _ _ _ R Lt g.
  destruct (run_Done_history p s R) as (_ & [T1|LN] & Hist); [lia|].
  pose proof Hist as (_ & C0 & B0 & G0 & _).
  set (N := Z.to_nat (nx p)) in LN, C0, B0 |-.
  fold N.
  set (pc := full N (initial_conc p)) in C0 |-.
  set (pb := full N (initial_biomass p)) in B0 |-.
  destruct (proj1 (history_rows p s Hist 1) ltac:(lia)) as ([rc Erc] & _).
  destruct (history_step p s Hist 1 pc pb) as (EC & EB & g0 & Eg0 & Eg1);
    [lia|exact C0|exact B0|left; exists rc; left; exact Erc|].
  change (1 - 1)%nat with 0%nat in Eg0. rewrite G0 in Eg0. injection Eg0 as <-.
  assert (LC : length pc = N) by apply length_full.
  assert (LB : length pb = N) by apply length_full.
  assert (Gi : forall i, (i < N)%nat -> node_growth p pc pb i = g).
  { intros i Li. unfold node_growth, pc, pb. rewrite !lookup_total_full by lia.
    reflexivity. }
  exists (next_C p pc pb), (next_B p pc pb), (0 + gas_increment p pc pb).
  do 3 (split; [assumption|]). split.
  - intros i Li. exists (node_C p pc pb i), (pb !!! i + node_growth p pc pb i * dt).
    split; [apply lookup_next_C; assumption|].
    split; [apply lookup_next_B; assumption|]. split.
    + unfold node_C. fold N. rewrite (Gi i Li).
      pose proof (gradient_uniform _ pc dx (uniform_full N _) ltac:(lia)) as U1.
      pose proof (gradient_uniform 0 _ dx U1
                    ltac:(rewrite length_gradient; lia)) as U2.
      rewrite (uniform_lookup_total 0 (gradient pc dx))
        by (try assumption; rewrite length_gradient; lia).
      rewrite (uniform_lookup_total 0 (gradient (gradient pc dx) dx))
        by (try assumption; rewrite !length_gradient;
            rewrite ?length_gradient; lia).
      rewrite last_lookup_total by lia. rewrite LC.
      unfold pc at 1 2. rewrite !lookup_total_full by lia.
      apply Q.max_compat; [|reflexivity].
      destruct (i =? 0)%nat, (i =? N - 1)%nat; unfold rain_input, dt; field.
    + rewrite (Gi i Li). unfold pb. rewrite lookup_total_full by lia.
      unfold dt. ring.
  - assert (U : uniform g (next_growth p pc pb)).
    { apply Forall_lookup. intros i x E.
      assert (Li : (i < N)%nat).
      { apply lookup_lt_Some in E.
        rewrite (length_next_growth p pc pb LC LB) in E. exact E. }
      rewrite (lookup_next_growth p pc pb LC LB i Li) in E. injection E as <-.
      rewrite (Gi i Li). reflexivity. }
    unfold gas_increment.
    rewrite (np_sum_uniform _ _
               (scal_r_uniform _ _ (biogas_yield p) (scal_r_uniform _ _ dt U))).
    rewrite !length_scal_r, (length_next_growth p pc pb LC LB).
    unfold N. rewrite Z2Nat.id by lia. unfold dt. ring.
Qed.

(** Row 1 of the small run: [102.5 = max(100 - 2.5 + 10 * 0.5 - 0, 0)] at
    node 0, biomass 52.5, gas [2 * 2.5 * 0.5]. *)
Lemma first_pass_witness :
  run small = Done small_result /\
  exists c g1,
    (C small_result !! 1%nat) ≫= (.!! 0%nat) = Some c /\
    gas small_result !! 1%nat = Some g1 /\
    c == Qmax (100 - monod (100 / (1 + 1)) 50 0.1 50 + 10 * 0.5 - 0) 0 /\
    g1 == 2 * monod (100 / (1 + 1)) 50 0.1 50 * 0.5.
Proof.
  split; [exact run_small|].
  destruct (first_pass small small_result ltac:(cbn; lra) ltac:(cbn; lra)
              ltac:(cbn; lra) run_small ltac:(vm_compute; discriminate))
    as (rowC & rowB & g1 & EC & EB & Eg & P & G).
  destruct (P 0%nat ltac:(vm_compute; lia)) as (c & b & Ec & _ & Hc & _).
  exists c, g1. split; [|split; [exact Eg|split; [exact Hc | exact G]]].
  rewrite EC. exact Ec.
Defined.

(** ** The update in exact arithmetic (lines 59-79) *)

(** X16.  In exact rational arithmetic, with [Ks > 0], [Kd >= 0] and a
    non-negative initial concentration: in a completed run, every row [n]
    with [1 <= n < t_steps] of the concentration field is, node by node, the
    update formula of the specification, with the leakage coefficient
    [permeability / thickness * dt * 86400], applied to rows [n-1] of the
    concentration and biomass fields, clamped at zero. *)
Theorem stepper_formula_exact p s :
  0 < Ks p -> 0 <= sorption_kd p -> 0 <= initial_conc p ->
  run p = Done s ->
  forall n, (1 <= n)%nat -> (Z.of_nat n < t_steps p)%Z ->
  exists prevC prevB row,
    C s !! (n - 1)%nat = Some prevC /\
    B s !! (n - 1)%nat = Some prevB /\
    C s !! n = Some row /\
    length row = Z.to_nat (nx p) /\
    forall i, (i < Z.to_nat (nx p))%nat ->
      exists c, row !! i = Some c /\ c == Spec.concentration p prevC prevB i.
Proof.
  intros _ _ _ R n L1 Lt.
  destruct (run_Done_history p s R) as (_ & [T1|LN] & Hist); [lia|].
  destruct (proj1 (history_rows p s Hist (n - 1)) ltac:(lia))
    as ([pc Epc] & [pb Epb] & _).
  destruct (proj1 (history_rows p s Hist n) ltac:(lia)) as ([row Er] & _).
  destruct (history_step p s Hist n pc pb) as (EC & _);
    [lia|assumption|assumption|left; exists row; left; exact Er|].
  pose proof (history_length_C p s Hist _ _ Epc) as LC.
  pose proof (history_length_B p s Hist _ _ Epb) as LB.
  exists pc, pb, (next_C p pc pb).
  split; [assumption|]. split; [assumption|]. split; [assumption|].
  split; [apply length_next_C; assumption|].
  intros i Li. exists (node_C p pc pb i).
  split; [apply lookup_next_C; assumption|].
  apply node_C_spec; lia.
Qed.

(** Row 1 of the small run: [102.5 = max(100 - 0 + 0 - 2.5 + 5 - 0, 0)] at
    node 0. *)
Lemma stepper_formula_exact_witness :
  run small = Done small_result /\
  exists c, c == Spec.concentration small [100; 100] [50; 50] 0 /\ c == 102.5.
Proof.
  split; [exact run_small|].
  destruct (stepper_formula_exact small small_result ltac:(cbn; lra)
              ltac:(cbn; lra) ltac:(cbn; lra) run_small 1%nat
              ltac:(lia) ltac:(reflexivity))
    as (prevC & prevB & row & EC & EB & Er & _ & P).
  injection EC as <-. injection EB as <-. injection Er as <-.
  destruct (P 0%nat ltac:(vm_compute; lia)) as (c & Ec & Hc).
  exists c. split; [exact Hc|]. injection Ec as <-. reflexivity.
Defined.

(** X17.  In exact rational arithmetic, with [Ks > 0], [Kd >= 0] and a
    non-negative initial concentration, every entry of the concentration
    field of a completed run is non-negative. *)
Theorem concentration_nonneg_exact p s :
  0 < Ks p -> 0 <= sorption_kd p -> 0 <= initial_conc p ->
  run p = Done s ->
  forall n row node c,
    C s !! n = Some row -> row !! node = Some c -> 0 <= c.
Proof.
  intros _ _ H0 R n row node c En Ec.
  destruct (run_Done_history p s R) as (_ & _ & Hist).
  pose proof (history_C_nonneg p s Hist n row H0 En) as F.
  exact (proj1 (Forall_lookup _ _) F _ _ Ec).
Qed.

(** In the small run, [C[1,0] = 102.5] and [C[1,1] = 97.49136]. *)
Lemma concentration_nonneg_exact_witness :
  run small = Done small_result /\
  0 <= 41000000000000 # 400000000000 /\
  0 <= 3899654400000000000 # 40000000000000000.
Proof.
  split; [exact run_small|].
  pose proof (concentration_nonneg_exact small small_result ltac:(cbn; lra)
                ltac:(cbn; lra) ltac:(cbn; lra) run_small) as P.
  split.
  - exact (P 1%nat _ 0%nat _ eq_refl eq_refl).
  - exact (P 1%nat _ 1%nat _ eq_refl eq_refl).
Defined.
